(** * comicsocr.src.api: ingestion and aggregation pipeline

    A shallow embedding of [comicsocr/src/api.py]: the three entry points
    [read_from_file], [read_from_archive_file] and [read_from_directory],
    the helpers [write_to_file], [_get_file_name],
    [_create_config_from_dict] and [_parse_args_in_correct_type], and the
    parts of the Python runtime they lean on ([os.path], [ntpath],
    [os.walk], [dict], the shell commands [mkdir -p] and [rm -rf], and the
    [patoolib] calls).

    Strings are [string]; a Python exception is a value of [error]; a
    call is a function from the state of the world (the file tree and
    the rows appended to output files) to an [outcome], which keeps the
    world reached when the call raises: no function of the module
    catches an exception, so a raise anywhere ends every call on the
    stack with the world as it was at that point.

    What is outside [api.py] and not part of the Python runtime (the
    class [Config], the recogniser [Reader], [eval], [configparser] and
    [ast.literal_eval]) is a field of the class [Collaborators]; the
    archive tool is modelled on the file tree, where an archive file
    carries the answers of the tool.  Calls of [logger.info] are left
    out.  [read_from_directory] and [read_from_archive_file] call each
    other, so they take [fuel]. *)

From Stdlib Require Import String Ascii List Bool Arith ZArith Lia.
Import ListNotations.
Local Open Scope string_scope.

Set Implicit Arguments.

(** ** Python string operations *)

Module Str.

Definition slash : ascii := "/"%char.
Definition backslash : ascii := "\"%char.
Definition dot : ascii := "."%char.
Definition colon : ascii := ":"%char.

(** [s[:n]] and [s[n:]] for [0 <= n]. *)
Fixpoint take (n : nat) (s : string) : string :=
  match n, s with
  | S n', String c r => String c (take n' r)
  | _, _ => ""
  end.

Fixpoint drop (n : nat) (s : string) : string :=
  match n, s with
  | S n', String _ r => drop n' r
  | _, _ => s
  end.

(** [s[i:j]] for [0 <= i], [0 <= j]. *)
Definition slice (i j : nat) (s : string) : string := take (j - i) (drop i s).

(** [s.rfind(c)]: the last index of [c], or [-1]. *)
Fixpoint rfind_from (c : ascii) (s : string) (i last : Z) : Z :=
  match s with
  | "" => last
  | String a r => rfind_from c r (i + 1) (if Ascii.eqb a c then i else last)
  end.

Definition rfind (c : ascii) (s : string) : Z := rfind_from c s 0 (-1).

(** [s.find(c, start)] for a set of characters given as a test: the
    first index [>= start] whose character passes, or [-1]. *)
Fixpoint find_from (p : ascii -> bool) (s : string) (i : Z) (start : Z) : Z :=
  match s with
  | "" => -1
  | String a r =>
      if (start <=? i)%Z && p a then i else find_from p r (i + 1) start
  end.

Definition find (p : ascii -> bool) (s : string) (start : Z) : Z :=
  find_from p s 0 start.

(** [s.startswith(pre)] *)
Fixpoint startswith (pre s : string) : bool :=
  match pre, s with
  | "", _ => true
  | String a pre', String b s' => Ascii.eqb a b && startswith pre' s'
  | String _ _, "" => false
  end.

Fixpoint last_char (s : string) : option ascii :=
  match s with
  | "" => None
  | String c "" => Some c
  | String _ r => last_char r
  end.

(** [s.endswith(c)] for a one-character [c]. *)
Definition endswith_char (c : ascii) (s : string) : bool :=
  match last_char s with
  | Some a => Ascii.eqb a c
  | None => false
  end.

Fixpoint all_chars (p : ascii -> bool) (s : string) : bool :=
  match s with
  | "" => true
  | String c r => p c && all_chars p r
  end.

(** [s.rstrip(chars)], the stripped characters given as a test. *)
Fixpoint rstrip (p : ascii -> bool) (s : string) : string :=
  match s with
  | "" => ""
  | String c r =>
      match rstrip p r with
      | "" => if p c then "" else String c ""
      | r' => String c r'
      end
  end.

(** [x in xs] for a list of strings. *)
Definition mem (x : string) (xs : list string) : bool :=
  existsb (String.eqb x) xs.

(** [sub in s] for strings: substring test. *)
Fixpoint contains (sub s : string) : bool :=
  startswith sub s ||
  match s with
  | "" => false
  | String _ r => contains sub r
  end.

(** The last index of a character, structurally. *)
Fixpoint rpos (c : ascii) (s : string) : option nat :=
  match s with
  | "" => None
  | String a r =>
      match rpos c r with
      | Some k => Some (S k)
      | None => if Ascii.eqb a c then Some 0 else None
      end
  end.

Definition index_of (o : option nat) : Z :=
  match o with
  | Some k => Z.of_nat k
  | None => -1
  end.

End Str.

(** ** [os.path] (posixpath) and [ntpath] *)

Module Path.
Import Str.

Definition is_slash (c : ascii) : bool := Ascii.eqb c slash.
Definition is_dot (c : ascii) : bool := Ascii.eqb c dot.
(** [ntpath] separators: ['\\/']. *)
Definition is_ntsep (c : ascii) : bool :=
  Ascii.eqb c slash || Ascii.eqb c backslash.

(** [os.path.splitext] ([genericpath._splitext] with [sep = '/'],
    no [altsep], [extsep = '.']):
<<
  sepIndex = p.rfind(sep)
  dotIndex = p.rfind(extsep)
  if dotIndex > sepIndex:
      filenameIndex = sepIndex + 1
      while filenameIndex < dotIndex:
          if p[filenameIndex:filenameIndex+1] != extsep:
              return p[:dotIndex], p[dotIndex:]
          filenameIndex += 1
  return p, p[:0]
>>
    The loop returns at the first character of
    [p[sepIndex+1:dotIndex]] that is not a dot. *)
Definition splitext (p : string) : string * string :=
  let sepIndex := rfind slash p in
  let dotIndex := rfind dot p in
  if (sepIndex <? dotIndex)%Z then
    let leading := slice (Z.to_nat (sepIndex + 1)) (Z.to_nat dotIndex) p in
    if all_chars is_dot leading then (p, "")
    else (take (Z.to_nat dotIndex) p, drop (Z.to_nat dotIndex) p)
  else (p, "").

(** [os.path.dirname]:
<<
  i = p.rfind(sep) + 1
  head = p[:i]
  if head and head != sep*len(head):
      head = head.rstrip(sep)
  return head
>> *)
Definition dirname (p : string) : string :=
  let i := (rfind slash p + 1)%Z in
  let head := take (Z.to_nat i) p in
  if negb (String.eqb head "") && negb (all_chars is_slash head)
  then rstrip is_slash head
  else head.

(** [os.path.join(a, b)] with one component [b]:
<<
  path = a
  if b.startswith(sep): path = b
  elif not path or path.endswith(sep): path += b
  else: path += sep + b
>> *)
Definition join (a b : string) : string :=
  if startswith "/" b then b
  else if String.eqb a "" || endswith_char slash a then a ++ b
  else a ++ "/" ++ b.

(** [ntpath.splitdrive] (CPython 3.11); [normp] is [p] with ['/']
    replaced by ['\\'], so a test on [normp] is a test for either
    separator on [p]:
<<
    if len(p) >= 2:
        normp = p.replace(altsep, sep)
        if normp[0:2] == sep * 2:
            start = 8 if normp[:8].upper() == unc_prefix else 2
            index = normp.find(sep, start)
            if index == -1:
                return p, p[:0]
            index2 = normp.find(sep, index + 1)
            if index2 == -1:
                return p, p[:0]
            return p[:index2], p[index2:]
        if normp[1:2] == colon:
            return p[:2], p[2:]
    return p[:0], p
>>
    with [unc_prefix = '\\\\?\\UNC\\']. *)
Definition two_seps (p : string) : bool :=
  match p with
  | String a (String b _) => is_ntsep a && is_ntsep b
  | _ => false
  end.

Definition is_letter (upper lower c : ascii) : bool :=
  Ascii.eqb c upper || Ascii.eqb c lower.

(** [normp[:8].upper() == unc_prefix] *)
Definition has_unc_prefix (p : string) : bool :=
  match p with
  | String c0 (String c1 (String c2 (String c3
      (String c4 (String c5 (String c6 (String c7 _))))))) =>
      is_ntsep c0 && is_ntsep c1 && Ascii.eqb c2 "?"%char && is_ntsep c3 &&
      is_letter "U"%char "u"%char c4 && is_letter "N"%char "n"%char c5 &&
      is_letter "C"%char "c"%char c6 && is_ntsep c7
  | _ => false
  end.

Definition splitdrive (p : string) : string * string :=
  if (2 <=? String.length p)%nat then
    if two_seps p then
      let start := if has_unc_prefix p then 8%Z else 2%Z in
      let index := find is_ntsep p start in
      if (index =? -1)%Z then (p, "")
      else
        let index2 := find is_ntsep p (index + 1) in
        if (index2 =? -1)%Z then (p, "")
        else (take (Z.to_nat index2) p, drop (Z.to_nat index2) p)
    else if String.eqb (slice 1 2 p) ":" then (take 2 p, drop 2 p)
    else ("", p)
  else ("", p).

(** The [while] loop of [ntpath.split]: the largest [i] with
    [p[i-1]] a separator, or [0]:
<<
  i = len(p)
  while i and p[i-1] not in seps: i -= 1
>> *)
Fixpoint last_sep_end (p : string) (i last : nat) : nat :=
  match p with
  | "" => last
  | String c r => last_sep_end r (S i) (if is_ntsep c then S i else last)
  end.

(** [ntpath.split]:
<<
  d, p = splitdrive(p)
  i = len(p)
  while i and p[i-1] not in seps: i -= 1
  head, tail = p[:i], p[i:]
  head = head.rstrip(seps) or head
  return d + head, tail
>> *)
Definition ntsplit (p : string) : string * string :=
  let '(d, p) := splitdrive p in
  let i := last_sep_end p 0 0 in
  let head := take i p in
  let tail := drop i p in
  let head := match rstrip is_ntsep head with
              | "" => head
              | h => h
              end in
  (d ++ head, tail).

Definition ntbasename (p : string) : string := snd (ntsplit p).

End Path.

(** ** Helper of the API: the base name of a path

<<
def _get_file_name(path):
    head, tail = ntpath.split(path)
    return tail or ntpath.basename(head)
>> *)
Definition _get_file_name (path : string) : string :=
  let '(head, tail) := Path.ntsplit path in
  match tail with
  | "" => Path.ntbasename head
  | _ => tail
  end.

Definition IMAGE_EXTENSIONS : list string := [".jpg"; ".png"; ".bmp"; ".tiff"].
Definition ARCHIVE_EXTENSIONS : list string := [".rar"; ".cbr"; ".zip"].

(** ** Python dictionaries

    A [dict] keeps its keys unique and in insertion order, and
    [items()] yields them in that order: an association list in which
    [d[k] = v] replaces the value of a present key in place and appends
    an absent one. *)

Module Dict.

Definition dict (V : Type) : Type := list (string * V).

Definition empty {V} : dict V := [].

Fixpoint get {V} (k : string) (d : dict V) : option V :=
  match d with
  | [] => None
  | (k', v) :: r => if String.eqb k k' then Some v else get k r
  end.

(** [d[k] = v] *)
Fixpoint set {V} (k : string) (v : V) (d : dict V) : dict V :=
  match d with
  | [] => [(k, v)]
  | (k', v') :: r =>
      if String.eqb k k' then (k', v) :: r else (k', v') :: set k v r
  end.

Fixpoint remove {V} (k : string) (d : dict V) : dict V :=
  match d with
  | [] => []
  | (k', v') :: r =>
      if String.eqb k k' then remove k r else (k', v') :: remove k r
  end.

(** [d.update(other)]: every item of [other], in order, is assigned
    into [d]. *)
Definition update {V} (d other : dict V) : dict V :=
  fold_left (fun acc kv => set (fst kv) (snd kv) acc) other d.

Definition keys {V} (d : dict V) : list string := map fst d.

(** [len(d)] *)
Definition size {V} (d : dict V) : nat := List.length d.

(** The invariant of a Python dictionary: no key occurs twice. *)
Definition wf {V} (d : dict V) : Prop := NoDup (keys d).

Definition disjoint {V} (a b : dict V) : Prop :=
  forall k, In k (keys a) -> In k (keys b) -> False.

End Dict.

(** ** The file tree

    A node is a regular file with its bytes, an archive file, or a
    directory.  An archive records what the archive tool makes of it:
    whether its integrity test passes, whether its extraction succeeds,
    and its members.  Entries of a directory are kept in the order in
    which [os.scandir] lists them. *)

#[warnings="-register-all"]
Inductive node : Type :=
| File (data : string)
| Packed (tests_ok extracts_ok : bool) (members : list (string * node))
| Dir (entries : list (string * node)).

Module Tree.

(** Strings between slashes, as [p.split('/')]. *)
Fixpoint segments (p : string) : list string :=
  match p with
  | "" => [""]
  | String c r =>
      if Ascii.eqb c Str.slash then "" :: segments r
      else match segments r with
           | x :: xs => String c x :: xs
           | [] => [String c ""]
           end
  end.

(** One step of path resolution: empty components and ["."] are
    skipped, [".."] goes up.  Resolution is lexical (a component is not
    looked up before [".."] drops it), and the working directory of the
    process is the root of the tree, so a relative path and the same
    path with a leading slash name the same node. *)
Definition push (stack : list string) (c : string) : list string :=
  if String.eqb c "" || String.eqb c "." then stack
  else if String.eqb c ".." then removelast stack
  else stack ++ [c].

Definition resolve (p : string) : list string :=
  fold_left push (segments p) [].

Definition lookup_entry (name : string) (es : list (string * node))
  : option node := Dict.get name es.

Fixpoint lookup (comps : list string) (t : node) : option node :=
  match comps with
  | [] => Some t
  | c :: cs =>
      match t with
      | Dir es =>
          match lookup_entry c es with
          | Some child => lookup cs child
          | None => None
          end
      | _ => None
      end
  end.

(** [mkdir -p]: missing directories along the path are created; the
    command fails, leaving the tree as it is, when a component is a
    file. *)
Fixpoint mkdir_p (comps : list string) (t : node) : node :=
  match comps with
  | [] => t
  | c :: cs =>
      match t with
      | Dir es =>
          match lookup_entry c es with
          | Some child => Dir (Dict.set c (mkdir_p cs child) es)
          | None => Dir (Dict.set c (mkdir_p cs (Dir [])) es)
          end
      | _ => t
      end
  end.

(** [rm -rf]: the entry named by the path is removed with everything
    below it; nothing happens when it does not exist. *)
Fixpoint rm_rf (comps : list string) (t : node) : node :=
  match comps with
  | [] => t
  | c :: cs =>
      match t with
      | Dir es =>
          match cs with
          | [] => Dir (Dict.remove c es)
          | _ =>
              match lookup_entry c es with
              | Some child => Dir (Dict.set c (rm_rf cs child) es)
              | None => t
              end
          end
      | _ => t
      end
  end.

(** Writing the members of an archive into the directory at the path:
    a member replaces an entry of the same name, a new one is added.
    [None] when the path is not a directory. *)
Fixpoint unpack (members : list (string * node)) (comps : list string)
  (t : node) : option node :=
  match comps with
  | [] =>
      match t with
      | Dir es => Some (Dir (Dict.update es members))
      | _ => None
      end
  | c :: cs =>
      match t with
      | Dir es =>
          match lookup_entry c es with
          | Some child =>
              match unpack members cs child with
              | Some child' => Some (Dir (Dict.set c child' es))
              | None => None
              end
          | None => None
          end
      | _ => None
      end
  end.

Definition is_dir (n : node) : bool :=
  match n with
  | Dir _ => true
  | _ => false
  end.

(** What [os.scandir] yields for a directory, split as [os.walk]
    splits it: the names of the subdirectories and the names of the
    other entries. *)
Definition listing (es : list (string * node)) : list string * list string :=
  (map fst (filter (fun e => is_dir (snd e)) es),
   map fst (filter (fun e => negb (is_dir (snd e))) es)).

End Tree.

(** ** The world, exceptions and outcomes *)

(** One row written by [csv.writer.writerow([imagePath, line])] to the
    file opened at [outputPath]. *)
Record row : Type := Row { row_file : string; row_key : string; row_line : string }.

(** The file tree below the root, the rows appended to output files,
    oldest first, and the record of the integrity tests run by
    [patoolib.test_archive], oldest first, each with its result.  Output
    files are kept apart from the tree that is walked, and opening one
    for appending always succeeds. *)
Record World : Type := mkWorld {
  tree : node;
  written : list row;
  tested : list (string * bool)
}.

Inductive error : Type :=
| Exception_ (msg : string)       (* raise Exception(msg) *)
| TypeError
| UnboundLocalError
| AttributeError
| KeyError
| PatoolError                     (* patoolib.util.PatoolError *)
| External (cls : string).        (* raised inside a collaborator *)

(** The result of a call: it returns a value, it raises, or the
    evaluation ran out of fuel.  The world is kept in the first two. *)
Inductive outcome (A : Type) : Type :=
| Returns (a : A) (w : World)
| Raises (e : error) (w : World)
| NoFuel.

Arguments Raises {A} e w.
Arguments NoFuel {A}.

Definition M (A : Type) : Type := World -> outcome A.

Definition ret {A} (a : A) : M A := fun w => Returns a w.

Definition raise {A} (e : error) : M A := fun w => Raises e w.

Definition bind {A B} (m : M A) (k : A -> M B) : M B :=
  fun w =>
    match m w with
    | Returns a w' => k a w'
    | Raises e w' => Raises e w'
    | NoFuel => NoFuel
    end.

(** A pure call that may raise. *)
Definition lift {A} (r : error + A) : M A :=
  match r with
  | inl e => raise e
  | inr a => ret a
  end.

Declare Scope api_scope.
Delimit Scope api_scope with api.
Notation "x <- m ;; k" := (bind m (fun x => k))
  (at level 61, m at next level, right associativity) : api_scope.
Notation "m ;; k" := (bind m (fun _ => k))
  (at level 61, right associativity) : api_scope.
Local Open Scope api_scope.

(** [for x in xs: acc = body(x, acc)] *)
Fixpoint for_each {X A} (xs : list X) (body : X -> A -> M A) (acc : A) : M A :=
  match xs with
  | [] => ret acc
  | x :: r => acc' <- body x acc ;; for_each r body acc'
  end.

(** [if outputPath:] for a parameter that is [None] or a string: the
    empty string is as false as [None]. *)
Definition truthy (outputPath : option string) : bool :=
  match outputPath with
  | Some s => negb (String.eqb s "")
  | None => false
  end.

(** The path written to where [if outputPath:] holds. *)
Definition sink_of (outputPath : option string) : option string :=
  match outputPath with
  | Some s => if truthy outputPath then Some s else None
  | None => None
  end.

(** ** What a call appends *)

(** A call that appends no row, whatever its outcome. *)
Definition silent {A} (m : M A) : Prop :=
  forall w,
    match m w with
    | Returns _ w' | Raises _ w' => written w' = written w
    | NoFuel => True
    end.


(** A call that returns only if every integrity test run during it
    passed. *)
Definition all_passed {A} (m : M A) : Prop :=
  forall w,
    match m w with
    | Returns _ w' =>
        exists log,
          tested w' = (tested w ++ log)%list /\
          Forall (fun t => snd t = true) log
    | _ => True
    end.

(** ** External calls on the world *)

(** The node a path names, if any.  The empty path names nothing
    ([ENOENT]). *)
Definition node_at (w : World) (path : string) : option node :=
  if String.eqb path "" then None
  else Tree.lookup (Tree.resolve path) (tree w).


(** [os.scandir(top)] as [os.walk] uses it: [None] stands for the
    [OSError] that [os.walk] swallows ([onerror=None]). *)
Definition scandir (w : World) (top : string) : option (list string * list string) :=
  match node_at w top with
  | Some (Dir es) => Some (Tree.listing es)
  | _ => None
  end.

(** The world after an integrity test of [path] with result [ok]. *)
Definition log_test (path : string) (ok : bool) (w : World) : World :=
  mkWorld (tree w) (written w) (tested w ++ [(path, ok)]).

(** [patoolib.test_archive(path)] *)
Definition test_archive (path : string) : M unit :=
  fun w =>
    match node_at w path with
    | Some (Packed true _ _) => Returns tt (log_test path true w)
    | _ => Raises PatoolError (log_test path false w)
    end.

(** [patoolib.list_archive(path)]: the listing goes to the log. *)
Definition list_archive (path : string) : M unit :=
  fun w =>
    match node_at w path with
    | Some (Packed _ _ _) => Returns tt w
    | _ => Raises PatoolError w
    end.

(** [patoolib.extract_archive(path, outdir=tempDir)]: all or nothing. *)
Definition extract_archive (path outdir : string) : M unit :=
  fun w =>
    match node_at w path with
    | Some (Packed _ true members) =>
        match Tree.unpack members (Tree.resolve outdir) (tree w) with
        | Some t => Returns tt (mkWorld t (written w) (tested w))
        | None => Raises PatoolError w
        end
    | _ => Raises PatoolError w
    end.

(** [subprocess.call('mkdir -p "%s"' % tempDir, shell=True)]: the exit
    status is dropped, so the call never raises.  The path is taken to
    hold no character that the shell reads specially inside double
    quotes. *)
Definition shell_mkdir_p (path : string) : M unit :=
  fun w =>
    Returns tt (mkWorld (Tree.mkdir_p (Tree.resolve path) (tree w)) (written w) (tested w)).

(** [subprocess.call('rm -rf "%s"' % tempDir, shell=True)] *)
Definition shell_rm_rf (path : string) : M unit :=
  fun w =>
    Returns tt (mkWorld (Tree.rm_rf (Tree.resolve path) (tree w)) (written w) (tested w)).

(** [for subDir, dirs, files in os.walk(directory): visit]: top-down,
    a directory is listed when the walk reaches it, the body runs on
    the listing, then the walk descends into each listed subdirectory
    (a subdirectory that has gone by then is skipped by the swallowed
    [OSError]).  [fuel] bounds the depth of the descent. *)
Fixpoint walk {A} (fuel : nat)
  (visit : string -> list string -> list string -> A -> M A)
  (top : string) (acc : A) : M A :=
  match fuel with
  | 0 => fun _ => NoFuel
  | S fuel' =>
      fun w =>
        match scandir w top with
        | None => Returns acc w
        | Some (dirs, files) =>
            (acc' <- visit top dirs files acc ;;
             for_each dirs (fun d a => walk fuel' visit (Path.join top d) a) acc') w
        end
  end.

(** ** The API *)

(** A script is the list of lines of a page, or [None] (what
    [read_from_file] returns when it writes to an output file). *)
Definition script : Type := option (list string).

Definition results_dict : Type := Dict.dict script.

(** [write_to_file]:
<<
    with open(outputPath, 'a', encoding="utf-8", newline="") as f:
        writer = csv.writer(f)
        for line in script:
            newRow = [imagePath, line]
            writer.writerow(newRow)
>>
    Iterating over [None] raises [TypeError]. *)
Definition write_to_file (imagePath : string) (script : script)
  (outputPath : string) : M unit :=
  match script with
  | None => raise TypeError
  | Some lines =>
      fun w => Returns tt
        (mkWorld (tree w)
           (written w ++ map (fun line => Row outputPath imagePath line) lines)
           (tested w))
  end.

(** Values a caller may pass as [config], or that [eval] and
    [ast.literal_eval] may produce; [Config] is the class
    [comicsocr.src.config.Config]. *)
#[warnings="-register-all"]
Inductive pyobj (Config : Type) : Type :=
| PyNone
| PyBool (b : bool)
| PyInt (z : Z)
| PyStr (s : string)
| PyList (items : list (pyobj Config))
| PyDict (items : list (pyobj Config * pyobj Config))
| PyConfig (c : Config).

Arguments PyNone {Config}.
Arguments PyBool {Config} b.
Arguments PyInt {Config} z.
Arguments PyStr {Config} s.
Arguments PyList {Config} items.
Arguments PyDict {Config} items.
Arguments PyConfig {Config} c.

(** What a [ConfigParser] answers after [read_dict]: for a section,
    its keys and their values as text. *)
Definition parser : Type := Dict.dict (Dict.dict string).

(** The collaborators of [api.py] that are not part of it. *)
Class Collaborators (Config : Type) : Type := {
  (** [comicsocr.src.config.DEFAULT_CONFIG_SECTION] *)
  DEFAULT_CONFIG_SECTION : string;
  (** the builtin [eval] on a string *)
  py_eval : string -> error + pyobj Config;
  (** [ConfigParser.read_dict] on a parser with [optionxform = str] *)
  read_dict : pyobj Config -> error + parser;
  (** [ast.literal_eval] *)
  literal_eval : string -> error + pyobj Config;
  (** [Config( **args)] *)
  Config_kwargs : Dict.dict (pyobj Config) -> error + Config;
  (** [Reader(config=config).read(imagePath=imagePath)]: the recogniser
      sees what the file tree holds at the path *)
  Reader_read : Config -> string -> option node -> error + list string
}.

Section Api.

Context {Config : Type} `{Collaborators Config}.

(** [key in container] for a string key. *)
Definition py_in (key : string) (container : pyobj Config) : error + bool :=
  match container with
  | PyDict items =>
      inr (existsb (fun kv => match fst kv with
                              | PyStr s => String.eqb s key
                              | _ => false
                              end) items)
  | PyList items =>
      inr (existsb (fun x => match x with
                             | PyStr s => String.eqb s key
                             | _ => false
                             end) items)
  | PyStr s => inr (Str.contains key s)
  | _ => inl TypeError
  end.

(** [_parse_args_in_correct_type]:
<<
  args = {}
  for key in configParser[defaultConfigSection]:
      args[key] = ast.literal_eval(configParser[defaultConfigSection][key])
  return args
>> *)
Fixpoint parse_items (items : list (string * string)) (args : Dict.dict (pyobj Config))
  : error + Dict.dict (pyobj Config) :=
  match items with
  | [] => inr args
  | (key, text) :: r =>
      match literal_eval text with
      | inl e => inl e
      | inr v => parse_items r (Dict.set key v args)
      end
  end.

Definition _parse_args_in_correct_type (configParser : parser)
  (defaultConfigSection : string) : error + Dict.dict (pyobj Config) :=
  match Dict.get defaultConfigSection configParser with
  | None => inl KeyError
  | Some section => parse_items section Dict.empty
  end.

(** [_create_config_from_dict]:
<<
  configParser = configparser.ConfigParser()
  configParser.optionxform = str
  if defaultConfigSection not in configDict:
      configDict = {defaultConfigSection: configDict}
  configParser.read_dict(configDict)
  args = _parse_args_in_correct_type(configParser, defaultConfigSection)
  config = Config( **args)
  return config
>> *)
Definition _create_config_from_dict (configDict : pyobj Config) : error + Config :=
  match py_in DEFAULT_CONFIG_SECTION configDict with
  | inl e => inl e
  | inr present =>
      let configDict :=
        if negb present
        then PyDict [(PyStr DEFAULT_CONFIG_SECTION, configDict)]
        else configDict in
      match read_dict configDict with
      | inl e => inl e
      | inr configParser =>
          match _parse_args_in_correct_type configParser DEFAULT_CONFIG_SECTION with
          | inl e => inl e
          | inr args => Config_kwargs args
          end
      end
  end.

(** The local variable [reader] of [read_from_file] after the
    dispatch on the type of [config]: bound to a reader built from a
    [Config], or left unbound ([None]). *)
Definition make_reader (config : pyobj Config) : M (option Config) :=
  match config with
  | PyConfig c => ret (Some c)
  | PyStr s =>
      if Str.startswith "{" s then
        config' <- lift (py_eval s) ;;
        c <- lift (_create_config_from_dict config') ;;
        ret (Some c)
      else ret None
  | PyDict _ =>
      c <- lift (_create_config_from_dict config) ;;
      ret (Some c)
  | _ => raise (Exception_ "Unsupported config type")
  end.

(** [read_from_file]:
<<
  fileName, fileExten = os.path.splitext(imagePath)
  if fileExten not in IMAGE_EXTENSIONS:
      raise Exception('Unsupported image file format: ' + fileExten)
  if type(config) == type(Config()):
      reader = Reader(config=config)
  else:
      if type(config) == str:
          if config.startswith('{'):
              config = eval(config)
              reader = Reader(config=_create_config_from_dict(configDict=config))
      elif type(config) == dict:
          reader = Reader(config=_create_config_from_dict(configDict=config))
      else:
          raise Exception('Unsupported config type')
  script = reader.read(imagePath=imagePath)
  if outputPath:
      write_to_file(imagePath=imagePath, script=script, outputPath=outputPath)
  else:
      return script
>> *)
Definition read_from_file (imagePath : string) (outputPath : option string)
  (config : pyobj Config) : M script :=
  let '(fileName, fileExten) := Path.splitext imagePath in
  if negb (Str.mem fileExten IMAGE_EXTENSIONS) then
    raise (Exception_ ("Unsupported image file format: " ++ fileExten))
  else
    reader <- make_reader config ;;
    lines <- match reader with
             | None => raise UnboundLocalError
             | Some c => fun w => lift (Reader_read c imagePath (node_at w imagePath)) w
             end ;;
    match sink_of outputPath with
    | Some out => write_to_file imagePath (Some lines) out ;; ret None
    | None => ret (Some lines)
    end.

(** [read_from_archive_file], with the function it calls on the
    extracted directory as a parameter ([read_from_directory], which
    is defined below and calls back):
<<
  fileName, fileExten = os.path.splitext(path)
  if fileExten not in ARCHIVE_EXTENSIONS:
      raise Exception('Unsupported archive file format: ' + fileExten)
  patoolib.test_archive(path, verbosity=1)
  parentDir = os.path.dirname(path)
  tempDir = os.path.join(parentDir, 'tmp')
  patoolib.list_archive(path)
  subprocess.call('mkdir -p "%s"' % tempDir, shell=True)
  patoolib.extract_archive(path, outdir=tempDir)
  results = read_from_directory(directory=tempDir, config=config)
  subprocess.call('rm -rf "%s"' % tempDir, shell=True)
  if outputPath:
      for imageTempPath, script in results.items():
          imagePath = path + '/' + _get_file_name(path=imageTempPath)
          write_to_file(imagePath=imagePath, script=script, outputPath=outputPath)
  else:
      return results
>>
    The inner call passes no [outputPath].  [results.items()] on
    [None] raises [AttributeError]. *)
Definition tempDir_of (path : string) : string :=
  let parentDir := Path.dirname path in
  Path.join parentDir "tmp".

Definition read_from_archive_file_with
  (read_from_directory : string -> option string -> pyobj Config -> M (option results_dict))
  (path : string) (outputPath : option string) (config : pyobj Config)
  : M (option results_dict) :=
  let '(fileName, fileExten) := Path.splitext path in
  if negb (Str.mem fileExten ARCHIVE_EXTENSIONS) then
    raise (Exception_ ("Unsupported archive file format: " ++ fileExten))
  else
    test_archive path ;;
    let tempDir := tempDir_of path in
    list_archive path ;;
    shell_mkdir_p tempDir ;;
    extract_archive path tempDir ;;
    results <- read_from_directory tempDir None config ;;
    shell_rm_rf tempDir ;;
    match sink_of outputPath with
    | Some out =>
        match results with
        | None => raise AttributeError
        | Some items =>
            for_each items
              (fun item _ =>
                 let '(imageTempPath, script) := item in
                 let imagePath := path ++ "/" ++ _get_file_name imageTempPath in
                 write_to_file imagePath script out) tt ;;
            ret None
        end
    | None => ret results
    end.

(** The body of the two loops of [read_from_directory], run on one
    [(subDir, dirs, files)] of the walk:
<<
      for file in files:
          fileName, fileExten = os.path.splitext(file)
          imagePath = os.path.join(subDir, file)
          if fileExten in IMAGE_EXTENSIONS:
              script = read_from_file(imagePath=imagePath, outputPath=outputPath, config=config)
              results[imagePath] = script
          elif fileExten in ARCHIVE_EXTENSIONS:
              archiveFileResults = read_from_archive_file(path=imagePath, outputPath=outputPath, config=config)
              results.update(archiveFileResults)
>>
    [results.update(None)] raises [TypeError]. *)
Definition visit_file
  (read_from_archive_file : string -> option string -> pyobj Config -> M (option results_dict))
  (outputPath : option string) (config : pyobj Config)
  (subDir : string) (file : string) (results : results_dict) : M results_dict :=
  let '(fileName, fileExten) := Path.splitext file in
  let imagePath := Path.join subDir file in
  if Str.mem fileExten IMAGE_EXTENSIONS then
    script <- read_from_file imagePath outputPath config ;;
    ret (Dict.set imagePath script results)
  else if Str.mem fileExten ARCHIVE_EXTENSIONS then
    archiveFileResults <- read_from_archive_file imagePath outputPath config ;;
    match archiveFileResults with
    | None => raise TypeError
    | Some other => ret (Dict.update results other)
    end
  else ret results.

Definition visit
  (read_from_archive_file : string -> option string -> pyobj Config -> M (option results_dict))
  (outputPath : option string) (config : pyobj Config)
  (subDir : string) (dirs files : list string) (results : results_dict)
  : M results_dict :=
  for_each files (visit_file read_from_archive_file outputPath config subDir) results.

(** [read_from_directory]:
<<
  results = {}
  for subDir, dirs, files in os.walk(directory):
      for file in files: ...
  if outputPath:
      for imagePath, script in results.items():
          write_to_file(imagePath=imagePath, script=script, outputPath=outputPath)
  else:
      return results
>>
    One unit of [fuel] is spent by each nested call (an archive inside
    the directory, a directory inside a directory). *)
Fixpoint read_from_directory (fuel : nat) (directory : string)
  (outputPath : option string) (config : pyobj Config) {struct fuel}
  : M (option results_dict) :=
  match fuel with
  | 0 => fun _ => NoFuel
  | S fuel' =>
      results <-
        walk fuel'
          (visit (read_from_archive_file_with (read_from_directory fuel'))
             outputPath config)
          directory Dict.empty ;;
      match sink_of outputPath with
      | Some out =>
          for_each results
            (fun item _ =>
               let '(imagePath, script) := item in
               write_to_file imagePath script out) tt ;;
          ret None
      | None => ret (Some results)
      end
  end.

Definition read_from_archive_file (fuel : nat)
  : string -> option string -> pyobj Config -> M (option results_dict) :=
  read_from_archive_file_with (read_from_directory fuel).

End Api.

(** ** Predicates on the world used in the statements *)

(** The integrity test of the archive at the path passes. *)
Definition intact (w : World) (path : string) : bool :=
  match node_at w path with
  | Some (Packed true _ _) => true
  | _ => false
  end.

(** A name without a slash, as [os.scandir] lists them. *)
Definition slash_free (name : string) : bool :=
  Str.all_chars (fun c => negb (Ascii.eqb c Str.slash)) name.


(** The extension of a listed file is neither an image extension nor
    an archive extension. *)
Definition unrecognised (file : string) : bool :=
  let fileExten := snd (Path.splitext file) in
  negb (Str.mem fileExten IMAGE_EXTENSIONS) &&
  negb (Str.mem fileExten ARCHIVE_EXTENSIONS).

(** Down to [depth] levels, the walk from [top] lists unrecognised files
    only. *)
Fixpoint quiet (depth : nat) (w : World) (top : string) : bool :=
  match depth with
  | 0 => false
  | S depth' =>
      match scandir w top with
      | None => true
      | Some (dirs, files) =>
          forallb unrecognised files &&
          forallb (fun d => quiet depth' w (Path.join top d)) dirs
      end
  end.

Definition is_image (file : string) : bool :=
  Str.mem (snd (Path.splitext file)) IMAGE_EXTENSIONS.

Definition is_archive (file : string) : bool :=
  Str.mem (snd (Path.splitext file)) ARCHIVE_EXTENSIONS.

(** Within [depth] levels, the walk from [top] lists a file with an
    image or an archive extension. *)
Fixpoint finds_recognised (depth : nat) (w : World) (top : string) : bool :=
  match depth with
  | 0 => false
  | S depth' =>
      match scandir w top with
      | None => false
      | Some (dirs, files) =>
          existsb (fun f => is_image f || is_archive f) files ||
          existsb (fun d => finds_recognised depth' w (Path.join top d)) dirs
      end
  end.

(** Down to [depth] levels, the walk from [top] lists no file with an
    archive extension, and no name with a slash in it. *)
Fixpoint no_archives (depth : nat) (w : World) (top : string) : bool :=
  match depth with
  | 0 => false
  | S depth' =>
      match scandir w top with
      | None => true
      | Some (dirs, files) =>
          forallb (fun f => slash_free f && negb (is_archive f)) files &&
          forallb (fun d => no_archives depth' w (Path.join top d)) dirs
      end
  end.

(** The paths of the files with an image extension that the walk from
    [top] lists down to [depth] levels, in the order of the walk: the
    files of a directory, then its subdirectories one after the
    other. *)
Fixpoint images_under (depth : nat) (w : World) (top : string) : list string :=
  match depth with
  | 0 => []
  | S depth' =>
      match scandir w top with
      | None => []
      | Some (dirs, files) =>
          (map (Path.join top) (filter is_image files) ++
           flat_map (fun d => images_under depth' w (Path.join top d)) dirs)%list
      end
  end.

(** A name with neither separator of [ntpath]. *)
Definition sep_free (name : string) : bool :=
  Str.all_chars (fun c => negb (Path.is_ntsep c)) name.

(** [ntpath.splitdrive] finds neither a drive letter nor a UNC prefix
    at the start of the path. *)
Definition no_drive (p : string) : bool :=
  String.eqb (fst (Path.splitdrive p)) "".

(** Every value stored in a result set is [None]. *)
Definition all_None (results : results_dict) : Prop :=
  Forall (fun item => snd item = None) results.



(** A result set as the calls without [outputPath] build it: no key
    twice, and a list of lines, not [None], for every key. *)
Definition well_formed (results : results_dict) : Prop :=
  Dict.wf results /\ Forall (fun item => snd item <> None) results.

(** An outcome after which the file tree and the record of integrity
    tests are as in [w]: the call returned or raised, and did not run
    out of fuel. *)
Definition undisturbed {A} (w : World) (o : outcome A) : Prop :=
  match o with
  | Returns _ w' | Raises _ w' => tree w' = tree w /\ tested w' = tested w
  | NoFuel => False
  end.

(** ** A concrete set of collaborators, for running the model *)

Module Demo.

(** A configuration object is the list of its keyword arguments. *)
Definition Config : Type := list (string * string).

Definition obj : Type := pyobj Config.

Definition py_eval (s : string) : error + obj :=
  if String.eqb s "{}" then inr (PyDict []) else inl (External "SyntaxError").

Definition read_dict (d : obj) : error + parser :=
  match d with
  | PyDict [(PyStr name, PyDict [])] => inr [(name, [])]
  | _ => inl (External "AttributeError")
  end.

Definition literal_eval (s : string) : error + obj :=
  inl (External "ValueError").

Definition Config_kwargs (args : Dict.dict obj) : error + Config :=
  match args with
  | [] => inr []
  | _ => inl TypeError
  end.

(** The recogniser reads the bytes of a regular file as one line. *)
Definition Reader_read (c : Config) (imagePath : string) (n : option node)
  : error + list string :=
  match n with
  | Some (File data) => inr [data]
  | _ => inl (External "cv2.error")
  end.

#[global] Instance ports : Collaborators Config := {
  DEFAULT_CONFIG_SECTION := "comicsocr";
  py_eval := py_eval;
  read_dict := read_dict;
  literal_eval := literal_eval;
  Config_kwargs := Config_kwargs;
  Reader_read := Reader_read
}.

(** The same collaborators with a recogniser that never raises: what
    is not a regular file reads as no line at all. *)
Definition lenient : Collaborators Config :=
  Build_Collaborators "comicsocr" py_eval read_dict literal_eval Config_kwargs
    (fun _ _ n =>
       match n with
       | Some (File data) => inr [data]
       | _ => inr []
       end).

Definition cfg : obj := PyConfig [].

Definition book : node :=
  Packed true true [("page1.jpg", File "HELLO"); ("page2.jpg", File "WORLD")].

(** [book.cbr] with two pages, alone in the working directory. *)
Definition w0 : World := mkWorld (Dir [("book.cbr", book)]) [] [].


(** A directory [comics] with a page and an archive that fails its
    integrity test, and a directory [covers] with one unsupported
    file. *)
Definition w_dirs : World :=
  mkWorld (Dir [("comics", Dir [("page1.jpg", File "HELLO");
                                ("bad.zip", Packed false true []);
                                ("page2.jpg", File "WORLD")]);
                ("covers", Dir [("cover.gif", File "GIF89a")]);
                ("pages", Dir [("notes.txt", File "x");
                               ("in", Dir [("page1.jpg", File "HELLO")])]);
                ("empty", Dir [])]) [] [].

End Demo.

(** A second set of collaborators, whose configuration is the list of
    its keyword arguments with boolean values: [eval] and
    [ast.literal_eval] read [True] and [False], and the recogniser reads
    the bytes of a regular file as one line. *)
Module Demo2.

Definition Config : Type := list (string * bool).

Definition obj : Type := pyobj Config.

Definition literal_eval (s : string) : error + obj :=
  if String.eqb s "True" then inr (PyBool true)
  else if String.eqb s "False" then inr (PyBool false)
  else inl (External "ValueError").

Definition py_eval (s : string) : error + obj :=
  if String.eqb s "{}" then inr (PyDict [])
  else if String.eqb s "{'debug': True}" then inr (PyDict [(PyStr "debug", PyBool true)])
  else inl (External "SyntaxError").

(** [str(value)] for the values of a section. *)
Definition text_of (v : obj) : option string :=
  match v with
  | PyBool true => Some "True"
  | PyBool false => Some "False"
  | PyStr s => Some s
  | _ => None
  end.

Fixpoint options_of (items : list (obj * obj)) : error + Dict.dict string :=
  match items with
  | [] => inr []
  | (PyStr k, v) :: r =>
      match text_of v, options_of r with
      | Some t, inr d => inr ((k, t) :: d)
      | _, _ => inl (External "TypeError")
      end
  | _ => inl (External "TypeError")
  end.

Definition read_dict (d : obj) : error + parser :=
  match d with
  | PyDict [(PyStr name, PyDict items)] =>
      match options_of items with
      | inr options => inr [(name, options)]
      | inl e => inl e
      end
  | _ => inl (External "AttributeError")
  end.

Fixpoint Config_kwargs (args : Dict.dict obj) : error + Config :=
  match args with
  | [] => inr []
  | (k, PyBool b) :: r =>
      match Config_kwargs r with
      | inr c => inr ((k, b) :: c)
      | inl e => inl e
      end
  | _ => inl TypeError
  end.

Definition ports : Collaborators Config :=
  Build_Collaborators "comicsocr" py_eval read_dict literal_eval Config_kwargs
    (fun _ _ n =>
       match n with
       | Some (File data) => inr [data]
       | _ => inl (External "cv2.error")
       end).

(** A directory [pages] with two pages and a text file, and an archive
    [book.cbr] beside a folder [old] that holds a page of its own. *)
Definition w_flat : World :=
  mkWorld (Dir [("pages", Dir [("p1.jpg", File "ONE");
                               ("notes.txt", File "x");
                               ("p2.png", File "TWO")]);
                ("shelf", Dir [("book.cbr", Demo.book);
                               ("old", Dir [("cover.jpg", File "COVER")])])]) [] [].

End Demo2.

(** * Properties *)

Unset Implicit Arguments.

(** ** Dictionaries: [d[k] = v] and [update] *)

Module DictFacts.
Import Dict.

Section WithValues.
Variable V : Type.
Implicit Types (d a b : dict V) (k : string) (v : V).

Lemma get_none_iff k d : get k d = None <-> ~ In k (keys d).
Proof.
  induction d as [|[k' v'] d IH]; simpl.
  - tauto.
  - destruct (String.eqb_spec k k') as [->|Hne].
    + split; [discriminate | intros Hn; exfalso; apply Hn; now left].
    + rewrite IH. split.
      * intros Hn [Heq|Hin]; [congruence | tauto].
      * intros Hn Hin. apply Hn. now right.
Qed.

Lemma get_set_same k v d : get k (set k v d) = Some v.
Proof.
  induction d as [|[k' v'] d IH]; simpl.
  - now rewrite String.eqb_refl.
  - destruct (String.eqb_spec k k') as [->|Hne]; simpl.
    + now rewrite String.eqb_refl.
    + destruct (String.eqb_spec k k'); [contradiction | exact IH].
Qed.

Lemma get_set_other k k' v d : k <> k' -> get k (set k' v d) = get k d.
Proof.
  intros Hne. induction d as [|[k2 v2] d IH]; simpl.
  - destruct (String.eqb_spec k k'); [contradiction | reflexivity].
  - destruct (String.eqb_spec k' k2) as [->|Hne2]; simpl.
    + destruct (String.eqb_spec k k2); [contradiction | reflexivity].
    + destruct (String.eqb_spec k k2); [reflexivity | exact IH].
Qed.

Lemma keys_set_absent k v d :
  ~ In k (keys d) -> keys (set k v d) = (keys d ++ [k])%list.
Proof.
  induction d as [|[k' v'] d IH]; simpl; intros Hn.
  - reflexivity.
  - destruct (String.eqb_spec k k') as [->|Hne].
    + exfalso. apply Hn. now left.
    + simpl. f_equal. apply IH. tauto.
Qed.

Lemma keys_set_present k v d : In k (keys d) -> keys (set k v d) = keys d.
Proof.
  induction d as [|[k' v'] d IH]; simpl; intros Hin.
  - contradiction.
  - destruct (String.eqb_spec k k') as [->|Hne]; simpl.
    + reflexivity.
    + f_equal. apply IH. destruct Hin; [congruence | assumption].
Qed.

Lemma size_set_absent k v d :
  ~ In k (keys d) -> size (set k v d) = S (size d).
Proof.
  intros Hn. unfold size.
  rewrite <- (length_map fst (set k v d)), <- (length_map fst d).
  change (map fst (set k v d)) with (keys (set k v d)).
  rewrite keys_set_absent by assumption.
  change (map fst d) with (keys d).
  rewrite length_app. simpl. lia.
Qed.

Lemma set_wf k v d : wf d -> wf (set k v d).
Proof.
  unfold wf. intros Hwf.
  destruct (in_dec string_dec k (keys d)) as [Hin|Hn].
  - now rewrite keys_set_present.
  - rewrite keys_set_absent by assumption.
    apply NoDup_app; [assumption | repeat constructor; simpl; tauto |].
    intros x Hx [<-|[]]. contradiction.
Qed.

Lemma update_cons a k v b : update a ((k, v) :: b) = update (set k v a) b.
Proof. reflexivity. Qed.

Lemma update_wf a b : wf a -> wf (update a b).
Proof.
  revert a. induction b as [|[k v] b IH]; intros a Hwf.
  - exact Hwf.
  - rewrite update_cons. apply IH. now apply set_wf.
Qed.

Lemma get_update_absent k a b :
  ~ In k (keys b) -> get k (update a b) = get k a.
Proof.
  revert a. induction b as [|[k' v'] b IH]; intros a Hn.
  - reflexivity.
  - rewrite update_cons, IH by (simpl in Hn; tauto).
    apply get_set_other. intros ->. apply Hn. now left.
Qed.

Lemma size_update_disjoint a b :
  wf b -> disjoint a b -> size (update a b) = size a + size b.
Proof.
  revert a. induction b as [|[k v] b IH]; intros a Hwf Hdis.
  - unfold update, size. simpl. lia.
  - rewrite update_cons. inversion Hwf as [|? ? Hk Hb]; subst.
    assert (Hka : ~ In k (keys a)).
    { intros Hin. apply (Hdis k Hin). now left. }
    rewrite IH.
    + rewrite size_set_absent by assumption. unfold size. simpl. lia.
    + exact Hb.
    + intros x Hx Hxb. rewrite keys_set_absent in Hx by assumption.
      apply in_app_or in Hx. destruct Hx as [Hx|[<-|[]]].
      * apply (Hdis x Hx). now right.
      * contradiction.
Qed.

Lemma get_update_second k v a b :
  wf b -> get k b = Some v -> get k (update a b) = Some v.
Proof.
  revert a. induction b as [|[k' v'] b IH]; intros a Hwf Hget.
  - discriminate.
  - rewrite update_cons. inversion Hwf as [|? ? Hk Hb]; subst.
    simpl in Hget. destruct (String.eqb_spec k k') as [->|Hne].
    + injection Hget as ->.
      rewrite get_update_absent by assumption. apply get_set_same.
    + now apply IH.
Qed.

End WithValues.

End DictFacts.

(** C5.  [results.update(archiveFileResults)] is the merge of two result
    sets.  When the two have no key in common, the merged set has as
    many entries as both together; a key of the second (merged-in) set
    maps to the second set's value after the merge, whether or not the
    first set had it. *)
Theorem merge_size_and_overlap (a b : results_dict) :
  Dict.wf b ->
  (Dict.disjoint a b ->
   Dict.size (Dict.update a b) = Dict.size a + Dict.size b) /\
  (forall k v, Dict.get k b = Some v -> Dict.get k (Dict.update a b) = Some v).
Proof.
  intros Hwf. split.
  - intros Hdis. now apply DictFacts.size_update_disjoint.
  - intros k v Hget. now apply DictFacts.get_update_second.
Qed.

Lemma merge_size_and_overlap_witness :
  let a : results_dict := [("a/p1.jpg", Some ["ONE"]); ("a/p2.jpg", Some ["TWO"])] in
  let b : results_dict := [("a/p2.jpg", Some ["DEUX"]); ("a/p3.jpg", Some ["TROIS"])] in
  let c : results_dict := [("b/p1.jpg", Some ["UN"])] in
  Dict.size (Dict.update a c) = 3 /\
  Dict.get "a/p2.jpg" (Dict.update a b) = Some (Some ["DEUX"]).
Proof.
  intros a b c. split.
  - apply (proj1 (@merge_size_and_overlap a c
                    ltac:(repeat constructor; simpl; intuition discriminate))).
    intros k Ha Hc. simpl in Ha, Hc.
    destruct Hc as [<-|[]]. intuition discriminate.
  - apply (proj2 (@merge_size_and_overlap a b
                    ltac:(repeat constructor; simpl; intuition discriminate))).
    reflexivity.
Defined.

(** ** Paths and the file tree *)

Module TreeFacts.
Import Tree.

Lemma append_assoc (a b c : string) : (a ++ b) ++ c = a ++ b ++ c.
Proof. induction a as [|x a IH]; simpl; [reflexivity | now rewrite IH]. Qed.




Lemma endswith_slash_inv d :
  Str.endswith_char Str.slash d = true -> exists d', d = d' ++ "/".
Proof.
  unfold Str.endswith_char. induction d as [|c r IH]; simpl.
  - discriminate.
  - destruct r as [|c' r'].
    + intros Hc. apply Ascii.eqb_eq in Hc. subst c. now exists "".
    + intros Hr. destruct (IH Hr) as [d' Hd']. exists (String c d').
      simpl. now rewrite <- Hd'.
Qed.









End TreeFacts.

(** ** Extensions of joined paths *)

Module PathFacts.
Import Str Path.

Lemma rfind_from_rpos c s i last :
  rfind_from c s i last =
  match rpos c s with
  | Some k => (i + Z.of_nat k)%Z
  | None => last
  end.
Proof.
  revert i last. induction s as [|a r IH]; intros i last; simpl.
  - reflexivity.
  - rewrite IH. destruct (rpos c r) as [k|].
    + lia.
    + destruct (Ascii.eqb a c); [lia | reflexivity].
Qed.

Lemma rfind_rpos c s : rfind c s = index_of (rpos c s).
Proof.
  unfold rfind. rewrite rfind_from_rpos. destruct (rpos c s); reflexivity.
Qed.

Lemma rpos_app c a b :
  rpos c (a ++ b) =
  match rpos c b with
  | Some k => Some (String.length a + k)
  | None => rpos c a
  end.
Proof.
  induction a as [|x a IH]; simpl.
  - destruct (rpos c b); reflexivity.
  - rewrite IH. destruct (rpos c b); reflexivity.
Qed.

Lemma rpos_lt c s k : rpos c s = Some k -> k < String.length s.
Proof.
  revert k. induction s as [|a r IH]; intros k; simpl.
  - discriminate.
  - destruct (rpos c r) as [j|].
    + intros [= <-]. specialize (IH j eq_refl). lia.
    + destruct (Ascii.eqb a c); [intros [= <-]; lia | discriminate].
Qed.

Lemma rpos_absent c s :
  all_chars (fun x => negb (Ascii.eqb x c)) s = true -> rpos c s = None.
Proof.
  induction s as [|a r IH]; simpl; intros Hs.
  - reflexivity.
  - apply andb_prop in Hs as [Ha Hr]. rewrite (IH Hr).
    apply negb_true_iff in Ha. now rewrite Ha.
Qed.

Lemma take_app_length a b k : take (String.length a + k) (a ++ b) = a ++ take k b.
Proof. induction a as [|x a IH]; simpl; [reflexivity | now rewrite IH]. Qed.

Lemma drop_app_length a b k : drop (String.length a + k) (a ++ b) = drop k b.
Proof. induction a as [|x a IH]; simpl; [reflexivity | exact IH]. Qed.

Lemma drop_app_exact a b : drop (String.length a) (a ++ b) = b.
Proof. induction a as [|x a IH]; simpl; [now destruct b | exact IH]. Qed.

Lemma drop_0 s : drop 0 s = s.
Proof. destruct s; reflexivity. Qed.

(** The extension of [pre ++ n] is the extension of [n] when [pre] is
    empty or ends with a slash and [n] has no slash. *)
Lemma splitext_under (pre n : string) :
  pre = "" \/ (exists q, pre = q ++ "/") ->
  all_chars (fun x => negb (Ascii.eqb x slash)) n = true ->
  snd (splitext (pre ++ n)) = snd (splitext n).
Proof.
  intros Hpre Hn. unfold splitext. rewrite !rfind_rpos, !rpos_app.
  rewrite (rpos_absent slash n Hn).
  assert (Hsep : index_of (rpos slash pre) = (Z.of_nat (String.length pre) - 1)%Z
                 /\ (index_of (rpos dot pre) <= index_of (rpos slash pre))%Z).
  { destruct Hpre as [->|[q ->]].
    - split; simpl; lia.
    - rewrite !rpos_app. simpl. split.
      + rewrite Nat.add_0_r.
        assert (String.length (q ++ "/") = S (String.length q)) as ->
            by (induction q; simpl; congruence).
        lia.
      + rewrite Nat.add_0_r. destruct (rpos dot q) as [k|] eqn:Hk; simpl.
        * apply rpos_lt in Hk. lia.
        * lia. }
  destruct Hsep as [Hsep Hdot]. simpl index_of at 3.
  destruct (rpos dot n) as [k|] eqn:Hk.
  - simpl index_of. rewrite Hsep.
    assert ((Z.of_nat (String.length pre) - 1 <? Z.of_nat (String.length pre + k))%Z = true)
      as -> by (apply Z.ltb_lt; lia).
    assert ((-1 <? Z.of_nat k)%Z = true) as -> by (apply Z.ltb_lt; lia).
    unfold slice.
    replace (Z.to_nat (Z.of_nat (String.length pre) - 1 + 1)) with (String.length pre) by lia.
    replace (Z.to_nat (-1 + 1)) with 0 by lia.
    rewrite !Nat2Z.id.
    rewrite (drop_app_exact pre n), (drop_app_length pre n k), drop_0.
    replace (String.length pre + k - String.length pre) with k by lia.
    rewrite Nat.sub_0_r.
    destruct (all_chars is_dot (take k n)); reflexivity.
  - assert ((index_of (rpos slash pre) <? index_of (rpos dot pre))%Z = false)
      as -> by (apply Z.ltb_ge; lia).
    reflexivity.
Qed.

(** [os.path.join] with a listed name keeps the extension of the
    name. *)
Lemma splitext_join (d n : string) :
  all_chars (fun x => negb (Ascii.eqb x slash)) n = true ->
  snd (splitext (join d n)) = snd (splitext n).
Proof.
  intros Hn. unfold join.
  assert (Hstart : startswith "/" n = false).
  { destruct n as [|c r]; [reflexivity|].
    simpl in Hn. apply andb_prop in Hn as [Hc _].
    apply negb_true_iff in Hc. unfold slash in Hc.
    change (startswith "/" (String c r)) with (Ascii.eqb "/"%char c && startswith "" r).
    now rewrite Ascii.eqb_sym, Hc. }
  rewrite Hstart.
  destruct (String.eqb_spec d "") as [->|Hd]; simpl.
  - reflexivity.
  - destruct (endswith_char slash d) eqn:He.
    + apply splitext_under; [|assumption]. right.
      clear -He. unfold endswith_char in He.
      induction d as [|c r IH]; simpl in He; [discriminate|].
      destruct r as [|c' r'].
      * apply Ascii.eqb_eq in He. subst c. now exists "".
      * destruct (IH He) as [q Hq]. exists (String c q). simpl. now rewrite <- Hq.
    + replace (d ++ String "/" n) with ((d ++ "/") ++ n).
      * apply splitext_under; [|assumption]. right. now exists d.
      * clear. induction d as [|c r IH]; simpl; [reflexivity | now rewrite IH].
Qed.

(** *** The workspace beside an archive *)



Lemma take_app_exact a b : take (String.length a) (a ++ b) = a.
Proof.
  rewrite <- (Nat.add_0_r (String.length a)), take_app_length.
  destruct b; simpl; induction a; simpl; congruence.
Qed.

Lemma length_app_char q c : String.length (q ++ String c "") = S (String.length q).
Proof. induction q; simpl; congruence. Qed.






End PathFacts.

(** ** Logical keys and workspace paths *)

Module KeyFacts.
Import Str Path PathFacts.

Lemma tmp_is_no_archive : is_archive "tmp" = false.
Proof. reflexivity. Qed.



End KeyFacts.

(** ** The monad *)

Section Api_facts.

Context {Config : Type} `{Collaborators Config}.

Lemma bind_Returns A B (m : M A) (k : A -> M B) w a w' :
  m w = Returns a w' -> bind m k w = k a w'.
Proof. unfold bind. now intros ->. Qed.

Lemma bind_Raises A B (m : M A) (k : A -> M B) w e w' :
  m w = Raises e w' -> bind m k w = Raises e w'.
Proof. unfold bind. now intros ->. Qed.

Lemma for_each_app X A (xs ys : list X) (body : X -> A -> M A) acc w :
  for_each (xs ++ ys) body acc w =
  bind (for_each xs body acc) (for_each ys body) w.
Proof.
  revert acc w. induction xs as [|x xs IH]; intros acc w; simpl.
  - reflexivity.
  - unfold bind. destruct (body x acc w) as [a w1|e w1|]; try reflexivity.
    specialize (IH a w1). unfold bind in IH. exact IH.
Qed.


(** ** Unsupported extensions on direct calls *)

(** C6.  A direct call of [read_from_file] on a path whose extension is
    not an image extension raises an exception whose message ends with
    that extension, and so does [read_from_archive_file] on a path
    whose extension is not an archive extension; nothing else has
    happened by then. *)
Theorem unsupported_extension_raises
  (fuel : nat) (path : string) (outputPath : option string)
  (config : pyobj Config) (w : World) :
  (Str.mem (snd (Path.splitext path)) IMAGE_EXTENSIONS = false ->
   read_from_file path outputPath config w =
   Raises (Exception_ ("Unsupported image file format: " ++ snd (Path.splitext path))) w) /\
  (Str.mem (snd (Path.splitext path)) ARCHIVE_EXTENSIONS = false ->
   read_from_archive_file fuel path outputPath config w =
   Raises (Exception_ ("Unsupported archive file format: " ++ snd (Path.splitext path))) w).
Proof.
  unfold read_from_file, read_from_archive_file, read_from_archive_file_with.
  destruct (Path.splitext path) as [fileName fileExten]. simpl.
  split; intros ->; reflexivity.
Qed.

(** ** The configuration value *)

Lemma make_reader_other_shapes (config : pyobj Config) w :
  match config with
  | PyConfig _ | PyStr _ | PyDict _ => True
  | _ => make_reader config w = Raises (Exception_ "Unsupported config type") w
  end.
Proof. destruct config; simpl; auto. Qed.

Lemma make_reader_Config c w : make_reader (PyConfig c) w = Returns (Some c) w.
Proof. reflexivity. Qed.

Lemma make_reader_dict items w :
  make_reader (PyDict items) w =
  match _create_config_from_dict (PyDict items) with
  | inr c => Returns (Some c) w
  | inl e => Raises e w
  end.
Proof.
  unfold make_reader, bind, lift.
  destruct (_create_config_from_dict (PyDict items)); reflexivity.
Qed.

Lemma make_reader_text s w :
  Str.startswith "{" s = true ->
  make_reader (PyStr s) w =
  match py_eval s with
  | inr d =>
      match _create_config_from_dict d with
      | inr c => Returns (Some c) w
      | inl e => Raises e w
      end
  | inl e => Raises e w
  end.
Proof.
  intros Hs. unfold make_reader, bind, lift. rewrite Hs.
  destruct (py_eval s) as [e|d]; [reflexivity|]. simpl.
  destruct (_create_config_from_dict d); reflexivity.
Qed.

Lemma make_reader_world config w :
  match make_reader config w with
  | Returns _ w' | Raises _ w' => w' = w
  | NoFuel => False
  end.
Proof.
  destruct config; unfold make_reader; try reflexivity.
  - destruct (Str.startswith "{" s); [|reflexivity].
    unfold bind, lift. destruct (py_eval s) as [e|d]; [reflexivity|].
    unfold ret. destruct (_create_config_from_dict d); reflexivity.
  - unfold bind, lift.
    destruct (_create_config_from_dict (PyDict items)); reflexivity.
Qed.

(** C8.  A [config] of type [str] that does not start with an opening
    brace binds no reader: [read_from_file] on a supported image path
    then raises [UnboundLocalError] at [reader.read], and neither
    normalises the text nor reports an unsupported configuration
    type. *)
Theorem text_config_without_brace_is_unbound
  (imagePath : string) (outputPath : option string) (s : string) (w : World) :
  Str.mem (snd (Path.splitext imagePath)) IMAGE_EXTENSIONS = true ->
  Str.startswith "{" s = false ->
  read_from_file imagePath outputPath (PyStr s) w = Raises UnboundLocalError w.
Proof.
  intros Hext Hs. unfold read_from_file.
  destruct (Path.splitext imagePath) as [fileName fileExten]. simpl in *.
  rewrite Hext. simpl. unfold make_reader. rewrite Hs. reflexivity.
Qed.

(** ** Directories with nothing to read *)

(** C10.  On a directory path that names nothing, or names a directory
    without entries, [read_from_directory] without [outputPath]
    returns the empty dictionary and leaves the world as it is, for
    every fuel of at least two. *)
Theorem empty_directory_returns_empty
  (fuel : nat) (directory : string) (config : pyobj Config) (w : World) :
  node_at w directory = None \/ node_at w directory = Some (Dir []) ->
  read_from_directory (S (S fuel)) directory None config w =
  Returns (Some Dict.empty) w.
Proof.
  intros Hdir. simpl. unfold bind, scandir.
  destruct Hdir as [-> | ->]; reflexivity.
Qed.

(** ** The workspace of an archive *)

Lemma bind_Returns_inv A B (m : M A) (k : A -> M B) w b w' :
  bind m k w = Returns b w' ->
  exists a w1, m w = Returns a w1 /\ k a w1 = Returns b w'.
Proof.
  unfold bind. destruct (m w) as [a w1|e w1|]; try discriminate.
  intros Hk. now exists a, w1.
Qed.





(** ** Failures inside a directory *)

Lemma test_archive_intact path w :
  test_archive path w =
  if intact w path then Returns tt (log_test path true w)
  else Raises PatoolError (log_test path false w).
Proof.
  unfold test_archive, intact.
  destruct (node_at w path) as [[d|[|] ok m|es]|]; reflexivity.
Qed.

Lemma archive_not_image ext :
  Str.mem ext ARCHIVE_EXTENSIONS = true -> Str.mem ext IMAGE_EXTENSIONS = false.
Proof.
  unfold Str.mem, ARCHIVE_EXTENSIONS. simpl. rewrite !orb_false_r.
  intros Hext. apply orb_prop in Hext as [Hext|Hext];
    [|apply orb_prop in Hext as [Hext|Hext]];
    apply String.eqb_eq in Hext; subst ext; reflexivity.
Qed.

(** An archive that fails its integrity test makes the loop body
    raise, with the world as it was. *)
Lemma visit_file_corrupt fuel outputPath config subDir file results w :
  slash_free file = true ->
  Str.mem (snd (Path.splitext file)) ARCHIVE_EXTENSIONS = true ->
  intact w (Path.join subDir file) = false ->
  visit_file (read_from_archive_file fuel) outputPath config subDir file results w =
  Raises PatoolError (log_test (Path.join subDir file) false w).
Proof.
  intros Hname Hext Hbad. unfold visit_file.
  pose proof (PathFacts.splitext_join subDir file Hname) as Hjoin.
  destruct (Path.splitext file) as [fileName fileExten]. cbn [snd] in Hext, Hjoin.
  rewrite (archive_not_image _ Hext), Hext.
  apply bind_Raises.
  unfold read_from_archive_file, read_from_archive_file_with.
  destruct (Path.splitext (Path.join subDir file)) as [n e]. cbn [snd] in Hjoin. subst e.
  rewrite Hext. cbn [negb].
  apply bind_Raises. rewrite test_archive_intact, Hbad. reflexivity.
Qed.

(** *** Integrity tests on the way to a return *)

Lemma all_passed_same A (m : M A) :
  (forall w a w', m w = Returns a w' -> tested w' = tested w) -> all_passed m.
Proof.
  intros Hm w. destruct (m w) as [a w'|e w'|] eqn:Hrun; auto.
  exists []. rewrite app_nil_r. split; [now apply (Hm w a) | constructor].
Qed.

Lemma all_passed_ret A (a : A) : all_passed (ret a).
Proof. apply all_passed_same. now intros w a' w' [= _ <-]. Qed.

Lemma all_passed_raise A e : all_passed (@raise A e).
Proof. intros w. exact I. Qed.

Lemma all_passed_lift A (r : error + A) : all_passed (lift r).
Proof. destruct r; [apply all_passed_raise | apply all_passed_ret]. Qed.

Lemma all_passed_bind A B (m : M A) (k : A -> M B) :
  all_passed m -> (forall a, all_passed (k a)) -> all_passed (bind m k).
Proof.
  intros Hm Hk w. unfold bind. specialize (Hm w).
  destruct (m w) as [a w1|e w1|]; auto.
  destruct Hm as (log1 & Hw1 & Hlog1). specialize (Hk a w1).
  destruct (k a w1) as [b w2|e w2|]; auto.
  destruct Hk as (log2 & Hw2 & Hlog2). exists (log1 ++ log2)%list.
  split; [rewrite Hw2, Hw1; symmetry; apply app_assoc | now apply Forall_app].
Qed.

Lemma all_passed_for_each X A (xs : list X) (body : X -> A -> M A) acc :
  (forall x a, all_passed (body x a)) -> all_passed (for_each xs body acc).
Proof.
  intros Hbody. revert acc. induction xs as [|x xs IH]; intros acc; cbn [for_each].
  - apply all_passed_ret.
  - apply all_passed_bind; auto.
Qed.

Lemma all_passed_test_archive path : all_passed (test_archive path).
Proof.
  intros w. rewrite test_archive_intact. destruct (intact w path); [|exact I].
  exists [(path, true)]. split; [reflexivity | repeat constructor].
Qed.

Lemma all_passed_list_archive path : all_passed (list_archive path).
Proof.
  apply all_passed_same. intros w a w'. unfold list_archive.
  destruct (node_at w path) as [[d|ok1 ok2 m|es]|]; try discriminate. now intros [= _ <-].
Qed.

Lemma all_passed_extract_archive path outdir : all_passed (extract_archive path outdir).
Proof.
  apply all_passed_same. intros w a w'. unfold extract_archive.
  destruct (node_at w path) as [[d|ok1 [|] m|es]|]; try discriminate.
  destruct (Tree.unpack m (Tree.resolve outdir) (tree w)); [|discriminate].
  now intros [= _ <-].
Qed.

Lemma all_passed_shell_mkdir_p path : all_passed (shell_mkdir_p path).
Proof. apply all_passed_same. now intros w a w' [= _ <-]. Qed.

Lemma all_passed_shell_rm_rf path : all_passed (shell_rm_rf path).
Proof. apply all_passed_same. now intros w a w' [= _ <-]. Qed.

Lemma all_passed_write_to_file imagePath sc out :
  all_passed (write_to_file imagePath sc out).
Proof.
  apply all_passed_same. intros w a w'. destruct sc; [|discriminate].
  now intros [= _ <-].
Qed.

Lemma all_passed_read_from_file imagePath outputPath config :
  all_passed (read_from_file imagePath outputPath config).
Proof.
  unfold read_from_file.
  destruct (Path.splitext imagePath) as [fileName fileExten].
  destruct (negb (Str.mem fileExten IMAGE_EXTENSIONS)); [apply all_passed_raise|].
  apply all_passed_bind.
  - apply all_passed_same. intros w a w' Hrun.
    pose proof (make_reader_world config w) as Hw. rewrite Hrun in Hw. now subst.
  - intros reader. apply all_passed_bind.
    + destruct reader as [c|]; [|apply all_passed_raise].
      intros w. apply all_passed_lift.
    + intros lines. destruct (sink_of outputPath); [|apply all_passed_ret].
      apply all_passed_bind; [apply all_passed_write_to_file|].
      intros _. apply all_passed_ret.
Qed.

Lemma all_passed_read_from_archive_file_with rfd path outputPath
  (config : pyobj Config) :
  (forall d o cfg, all_passed (rfd d o cfg)) ->
  all_passed (read_from_archive_file_with rfd path outputPath config).
Proof.
  intros Hrfd. unfold read_from_archive_file_with.
  destruct (Path.splitext path) as [fileName fileExten].
  destruct (negb (Str.mem fileExten ARCHIVE_EXTENSIONS)); [apply all_passed_raise|].
  apply all_passed_bind; [apply all_passed_test_archive|]. intros _.
  apply all_passed_bind; [apply all_passed_list_archive|]. intros _.
  apply all_passed_bind; [apply all_passed_shell_mkdir_p|]. intros _.
  apply all_passed_bind; [apply all_passed_extract_archive|]. intros _.
  apply all_passed_bind; [apply Hrfd|]. intros results.
  apply all_passed_bind; [apply all_passed_shell_rm_rf|]. intros _.
  destruct (sink_of outputPath) as [out|]; [|apply all_passed_ret].
  destruct results as [items|]; [|apply all_passed_raise].
  apply all_passed_bind; [|intros; apply all_passed_ret].
  apply all_passed_for_each. intros [k sc] []. apply all_passed_write_to_file.
Qed.

Lemma all_passed_walk A fuel (body : string -> list string -> list string -> A -> M A)
  top acc :
  (forall subDir dirs files a, all_passed (body subDir dirs files a)) ->
  all_passed (walk fuel body top acc).
Proof.
  intros Hbody. revert top acc.
  induction fuel as [|fuel IH]; intros top acc w; cbn [walk]; [exact I|].
  destruct (scandir w top) as [[dirs files]|].
  - apply all_passed_bind; [apply Hbody|]. intros acc'.
    apply all_passed_for_each. intros d a. apply IH.
  - exists []. rewrite app_nil_r. split; [reflexivity | constructor].
Qed.

Lemma all_passed_read_from_directory fuel directory outputPath config :
  all_passed (read_from_directory fuel directory outputPath config).
Proof.
  revert directory outputPath config.
  induction fuel as [|fuel IH]; intros directory outputPath config;
    cbn [read_from_directory].
  - intros w. exact I.
  - apply all_passed_bind.
    + apply all_passed_walk. intros subDir dirs files a.
      unfold visit. apply all_passed_for_each. intros file acc.
      unfold visit_file. destruct (Path.splitext file) as [fileName fileExten].
      destruct (Str.mem fileExten IMAGE_EXTENSIONS).
      * apply all_passed_bind; [apply all_passed_read_from_file|].
        intros; apply all_passed_ret.
      * destruct (Str.mem fileExten ARCHIVE_EXTENSIONS); [|apply all_passed_ret].
        apply all_passed_bind;
          [apply all_passed_read_from_archive_file_with; intros; apply IH|].
        intros [other|]; [apply all_passed_ret | apply all_passed_raise].
    + intros results. destruct (sink_of outputPath) as [out|]; [|apply all_passed_ret].
      apply all_passed_bind; [|intros; apply all_passed_ret].
      apply all_passed_for_each. intros [k sc] []. apply all_passed_write_to_file.
Qed.

(** C3 (as amended).  An archive that fails its integrity test is fatal
    to the whole call of [read_from_directory], at any depth: when the
    call returns, every integrity test run during it, in the directory,
    below it or inside an archive, has passed.  And when the walk lists
    the failing archive in the directory the call was made on, the call
    raises the archive tool's error right there: the results of the
    entries read before it are dropped, the entries listed after it are
    not read, and no result set is returned. *)
Theorem corrupt_archive_aborts_directory
  (fuel : nat) (directory : string) (outputPath : option string)
  (config : pyobj Config) (w : World) :
  (forall r w',
      read_from_directory fuel directory outputPath config w = Returns r w' ->
      exists log,
        tested w' = (tested w ++ log)%list /\
        Forall (fun t => snd t = true) log) /\
  (forall (w1 : World) (dirs pre post : list string) (file : string)
          (results : results_dict),
      scandir w directory = Some (dirs, (pre ++ file :: post)%list) ->
      for_each pre
        (visit_file (read_from_archive_file (S fuel)) outputPath config directory)
        Dict.empty w = Returns results w1 ->
      slash_free file = true ->
      Str.mem (snd (Path.splitext file)) ARCHIVE_EXTENSIONS = true ->
      intact w1 (Path.join directory file) = false ->
      read_from_directory (S (S fuel)) directory outputPath config w =
      Raises PatoolError (log_test (Path.join directory file) false w1)).
Proof.
  split.
  - intros r w' Hrun.
    pose proof (all_passed_read_from_directory fuel directory outputPath config w) as Hp.
    now rewrite Hrun in Hp.
  - intros w1 dirs pre post file results Hlist Hpre Hname Hext Hbad.
    cbn [read_from_directory]. apply bind_Raises.
    cbn [walk]. rewrite Hlist. apply bind_Raises.
    unfold visit. rewrite for_each_app.
    erewrite bind_Returns by exact Hpre.
    cbn [for_each]. apply bind_Raises.
    exact (visit_file_corrupt (S fuel) outputPath config directory file results w1
             Hname Hext Hbad).
Qed.

(** ** Unrecognised entries *)

Lemma visit_file_unrecognised rfaf outputPath config subDir file
  (results : results_dict) w :
  unrecognised file = true ->
  visit_file rfaf outputPath config subDir file results w = Returns results w.
Proof.
  unfold unrecognised, visit_file.
  destruct (Path.splitext file) as [fileName fileExten]. cbn [snd].
  intros Hun. apply andb_prop in Hun as [Hi Ha].
  apply negb_true_iff in Hi, Ha. now rewrite Hi, Ha.
Qed.

Lemma visit_unrecognised rfaf outputPath config subDir dirs files
  (results : results_dict) w :
  forallb unrecognised files = true ->
  visit rfaf outputPath config subDir dirs files results w = Returns results w.
Proof.
  unfold visit. induction files as [|file files IH]; cbn [forallb for_each].
  - reflexivity.
  - intros Hall. apply andb_prop in Hall as [Hf Hall].
    erewrite bind_Returns by (now apply visit_file_unrecognised). now apply IH.
Qed.

Lemma quiet_mono depth depth' w top :
  depth <= depth' -> quiet depth w top = true -> quiet depth' w top = true.
Proof.
  revert depth' top. induction depth as [|d IH]; intros depth' top Hle; simpl.
  - discriminate.
  - destruct depth' as [|d']; [lia|]. simpl.
    destruct (scandir w top) as [[dirs files]|]; [|reflexivity].
    intros Hq. apply andb_prop in Hq as [Hf Hd]. rewrite Hf. simpl.
    rewrite forallb_forall in *. intros x Hx. apply IH; [lia|]. now apply Hd.
Qed.

Lemma walk_quiet rfaf outputPath config depth top (results : results_dict) w :
  quiet depth w top = true ->
  walk depth (visit rfaf outputPath config) top results w = Returns results w.
Proof.
  revert top. induction depth as [|d IH]; intros top; cbn [quiet walk].
  - discriminate.
  - destruct (scandir w top) as [[dirs files]|]; [|reflexivity].
    intros Hq. apply andb_prop in Hq as [Hf Hd].
    erewrite bind_Returns by (now apply visit_unrecognised).
    induction dirs as [|x dirs IHd]; cbn [for_each forallb] in *.
    + reflexivity.
    + apply andb_prop in Hd as [Hx Hd].
      erewrite bind_Returns by (now apply IH). now apply IHd.
Qed.

(** C7.  In the loop of [read_from_directory] a listed file whose
    extension is neither an image extension nor an archive extension
    leaves the results and the world as they are and raises nothing;
    and on a directory under which the walk lists only such files,
    [read_from_directory] without [outputPath] returns the empty
    dictionary, for every fuel above the depth of the walk. *)
Theorem unrecognised_entries_are_skipped
  (fuel depth : nat) (directory : string) (config : pyobj Config) (w : World) :
  (forall rfaf outputPath subDir file (results : results_dict) w0,
      unrecognised file = true ->
      visit_file rfaf outputPath config subDir file results w0 = Returns results w0) /\
  (quiet depth w directory = true ->
   depth < fuel ->
   read_from_directory fuel directory None config w = Returns (Some Dict.empty) w).
Proof.
  split.
  - intros. now apply visit_file_unrecognised.
  - intros Hq Hlt. destruct fuel as [|fuel']; [lia|].
    cbn [read_from_directory].
    erewrite bind_Returns.
    2:{ apply walk_quiet. apply (quiet_mono depth fuel'); [lia | exact Hq]. }
    reflexivity.
Qed.

(** ** An output file together with a directory *)

Lemma sink_of_truthy outputPath :
  truthy outputPath = true -> exists out, outputPath = Some out /\ sink_of outputPath = Some out.
Proof.
  destruct outputPath as [out|]; [|discriminate].
  intros Ht. exists out. unfold sink_of. now rewrite Ht.
Qed.

(** With an output file, [read_from_file] returns [None], after
    appending one row for each line read. *)
Lemma read_from_file_sink imagePath outputPath out config w a w' :
  sink_of outputPath = Some out ->
  read_from_file imagePath outputPath config w = Returns a w' ->
  a = None /\ tree w' = tree w /\
  exists lines, written w' = (written w ++ map (Row out imagePath) lines)%list.
Proof.
  intros Hsink. unfold read_from_file.
  destruct (Path.splitext imagePath) as [fileName fileExten].
  destruct (negb (Str.mem fileExten IMAGE_EXTENSIONS)); [discriminate|].
  rewrite Hsink. intros Hrun.
  apply bind_Returns_inv in Hrun as (reader & w1 & Hreader & Hrun).
  pose proof (make_reader_world config w) as Hw. rewrite Hreader in Hw. subst w1.
  apply bind_Returns_inv in Hrun as (lines & w1 & Hread & Hrun).
  destruct reader as [c|]; [|discriminate].
  unfold lift in Hread.
  destruct (Reader_read c imagePath (node_at w imagePath)); [discriminate|].
  injection Hread as -> <-.
  apply bind_Returns_inv in Hrun as ([] & w2 & Hwrite & Hret).
  injection Hwrite as <-. injection Hret as <- <-.
  repeat split. now exists lines.
Qed.

(** With an output file, [read_from_archive_file] returns [None]. *)
Lemma read_from_archive_file_sink rfd path outputPath out
  (config : pyobj Config) w r w' :
  sink_of outputPath = Some out ->
  read_from_archive_file_with rfd path outputPath config w = Returns r w' ->
  r = None.
Proof.
  intros Hsink. cbv beta delta [read_from_archive_file_with].
  destruct (Path.splitext path) as [fileName fileExten].
  destruct (negb (Str.mem fileExten ARCHIVE_EXTENSIONS)); [discriminate|].
  rewrite Hsink. intros Hrun.
  do 6 (apply bind_Returns_inv in Hrun as (? & ? & _ & Hrun)).
  match type of Hrun with
  | match ?res with _ => _ end _ = _ => destruct res as [items|]; [|discriminate]
  end.
  apply bind_Returns_inv in Hrun as (? & ? & _ & Hret). now injection Hret as <- _.
Qed.

Lemma all_None_set k (results : results_dict) :
  all_None results -> all_None (Dict.set k None results).
Proof.
  unfold all_None. induction results as [|[k' v'] results IH]; simpl; intros Hall.
  - repeat constructor.
  - inversion Hall; subst. destruct (String.eqb k k'); constructor; auto.
Qed.

Lemma set_nonempty V k (v : V) (d : Dict.dict V) : Dict.set k v d <> [].
Proof. destruct d as [|[k' v'] d]; simpl; [|destruct (String.eqb k k')]; discriminate. Qed.

(** What one run of the loop body does when an output file is given
    and it returns: the tree is as before, every stored value is
    [None], and a recognised file leaves the results non-empty. *)
Lemma visit_file_sink rfd outputPath out (config : pyobj Config)
  subDir file results w results' w' :
  sink_of outputPath = Some out ->
  visit_file (read_from_archive_file_with rfd) outputPath config subDir file results w
  = Returns results' w' ->
  tree w' = tree w /\
  (all_None results -> all_None results') /\
  (results <> [] -> results' <> []) /\
  (is_image file || is_archive file = true -> results' <> []).
Proof.
  intros Hsink. unfold visit_file, is_image, is_archive.
  destruct (Path.splitext file) as [fileName fileExten]. cbn [snd].
  destruct (Str.mem fileExten IMAGE_EXTENSIONS).
  - intros Hrun. apply bind_Returns_inv in Hrun as (a & w1 & Hread & Hret).
    destruct (read_from_file_sink _ _ _ _ _ _ _ Hsink Hread) as (-> & Htree & _).
    injection Hret as <- <-. repeat split.
    + exact Htree.
    + apply all_None_set.
    + intros _. apply set_nonempty.
    + intros _. apply set_nonempty.
  - destruct (Str.mem fileExten ARCHIVE_EXTENSIONS).
    + intros Hrun. apply bind_Returns_inv in Hrun as (r & w1 & Harch & Hupd).
      eapply read_from_archive_file_sink in Harch; [|exact Hsink].
      subst r. discriminate.
    + intros [= <- <-]. repeat split; auto. discriminate.
Qed.

Lemma node_at_tree w w' path : tree w' = tree w -> node_at w' path = node_at w path.
Proof. unfold node_at. now intros ->. Qed.

Lemma scandir_tree w w' top : tree w' = tree w -> scandir w' top = scandir w top.
Proof. unfold scandir. intros Ht. now rewrite (node_at_tree w w' top Ht). Qed.

Lemma finds_recognised_tree depth w w' top :
  tree w' = tree w -> finds_recognised depth w' top = finds_recognised depth w top.
Proof.
  intros Ht. revert top. induction depth as [|d IH]; intros top; simpl.
  - reflexivity.
  - rewrite (scandir_tree w w' top Ht). destruct (scandir w top) as [[dirs files]|]; [|reflexivity].
    f_equal. induction dirs as [|x dirs IHd]; simpl; [reflexivity|].
    now rewrite IH, IHd.
Qed.

Lemma no_archives_tree depth w w' top :
  tree w' = tree w -> no_archives depth w' top = no_archives depth w top.
Proof.
  intros Ht. revert top. induction depth as [|d IH]; intros top; simpl.
  - reflexivity.
  - rewrite (scandir_tree w w' top Ht). destruct (scandir w top) as [[dirs files]|]; [|reflexivity].
    f_equal. induction dirs as [|x dirs IHd]; simpl; [reflexivity|].
    now rewrite IH, IHd.
Qed.

Section Sink.

Variables (rfd : string -> option string -> pyobj Config -> M (option results_dict))
          (outputPath : option string) (out : string) (config : pyobj Config).
Hypothesis Hsink : sink_of outputPath = Some out.

Let body := visit (read_from_archive_file_with rfd) outputPath config.

Lemma visit_sink subDir dirs files results w results' w' :
  body subDir dirs files results w = Returns results' w' ->
  tree w' = tree w /\
  (all_None results -> all_None results') /\
  (results <> [] -> results' <> []) /\
  (existsb (fun f => is_image f || is_archive f) files = true -> results' <> []).
Proof.
  unfold body, visit. revert results w.
  induction files as [|file files IH]; intros results w; cbn [for_each existsb].
  - intros [= <- <-]. repeat split; auto. discriminate.
  - intros Hrun. apply bind_Returns_inv in Hrun as (r1 & w1 & Hfile & Hrest).
    destruct (visit_file_sink _ _ _ _ _ _ _ _ _ _ Hsink Hfile) as (Ht1 & Hn1 & He1 & Hf1).
    destruct (IH _ _ Hrest) as (Ht & Hn & He & Hf).
    repeat split.
    + congruence.
    + auto.
    + auto.
    + intros Hex. apply orb_prop in Hex as [Hex|Hex]; auto.
Qed.

Lemma walk_sink fuel top results w results' w' :
  walk fuel body top results w = Returns results' w' ->
  tree w' = tree w /\
  (all_None results -> all_None results') /\
  (results <> [] -> results' <> []) /\
  (forall depth, finds_recognised depth w top = true -> results' <> []).
Proof.
  revert top results w results' w'.
  induction fuel as [|fuel IH]; intros top results w results' w'; cbn [walk].
  - discriminate.
  - destruct (scandir w top) as [[dirs files]|] eqn:Hscan.
    + intros Hrun. apply bind_Returns_inv in Hrun as (r1 & w1 & Hvisit & Hdirs).
      destruct (visit_sink _ _ _ _ _ _ _ Hvisit) as (Ht1 & Hn1 & He1 & Hf1).
      assert (Hloop : tree w' = tree w1 /\
                      (all_None r1 -> all_None results') /\
                      (r1 <> [] -> results' <> []) /\
                      (forall x depth, In x dirs ->
                         finds_recognised depth w1 (Path.join top x) = true ->
                         results' <> [])).
      { clear Hvisit Hn1 He1 Hf1 Hscan Ht1. revert r1 w1 Hdirs.
        induction dirs as [|x dirs IHd]; intros r1 w1; cbn [for_each].
        - intros [= <- <-]. repeat split; auto; intros x depth [].
        - intros Hrun. apply bind_Returns_inv in Hrun as (r2 & w2 & Hwalk & Hrest).
          destruct (IH _ _ _ _ _ Hwalk) as (Ht2 & Hn2 & He2 & Hf2).
          destruct (IHd _ _ Hrest) as (Ht & Hn & He & Hf).
          repeat split.
          + congruence.
          + auto.
          + auto.
          + intros y depth [<-|Hy] Hfind.
            * apply He. now apply (Hf2 depth).
            * apply (Hf y depth Hy).
              now rewrite (finds_recognised_tree depth _ _ _ Ht2). }
      destruct Hloop as (Ht & Hn & He & Hf).
      repeat split.
      * congruence.
      * auto.
      * auto.
      * intros [|d]; cbn [finds_recognised]; [discriminate|].
        rewrite Hscan. intros Hfind. apply orb_prop in Hfind as [Hfind|Hfind].
        -- auto.
        -- apply existsb_exists in Hfind as (x & Hx & Hfind).
           apply (Hf x d Hx). now rewrite (finds_recognised_tree d _ _ _ Ht1).
    + intros [= <- <-]. repeat split; auto.
      intros [|d]; cbn [finds_recognised]; [|rewrite Hscan]; discriminate.
Qed.

(** Writing out a non-empty result set whose values are all [None]
    raises [TypeError] at the first item. *)
Lemma write_None_raises (results : results_dict) w :
  results <> [] -> all_None results ->
  for_each results
    (fun item (_ : unit) =>
       let '(imagePath, script) := item in write_to_file imagePath script out) tt w
  = Raises TypeError w.
Proof.
  destruct results as [|[k v] results]; [contradiction|].
  intros _ Hall. inversion Hall as [|? ? Hv]; subst. simpl in Hv. subst v.
  reflexivity.
Qed.

End Sink.

(** With a [Config] object, a recogniser that reads every image, and
    no archive in sight, the walk itself returns. *)

Section Sink_total.

Variables (rfd : string -> option string -> pyobj Config -> M (option results_dict))
          (outputPath : option string) (out : string).
Hypothesis Hsink : sink_of outputPath = Some out.
Variable c : Config.
Hypothesis Hreads : forall path n, exists lines, Reader_read c path n = inr lines.

Let body_c := visit (read_from_archive_file_with rfd) outputPath (PyConfig c).

Lemma read_from_file_image subDir file w :
  slash_free file = true -> is_image file = true ->
  exists w', read_from_file (Path.join subDir file) outputPath (PyConfig c) w
             = Returns None w'.
Proof.
  intros Hname Himg. unfold read_from_file, is_image in *.
  pose proof (PathFacts.splitext_join subDir file Hname) as Hjoin.
  destruct (Path.splitext (Path.join subDir file)) as [fileName fileExten].
  cbn [snd] in Hjoin. subst fileExten. rewrite Himg, Hsink. cbn [negb].
  unfold make_reader, bind, ret, lift.
  destruct (Hreads (Path.join subDir file) (node_at w (Path.join subDir file)))
    as [lines ->].
  eexists. reflexivity.
Qed.

Lemma visit_file_returns subDir file results w :
  slash_free file && negb (is_archive file) = true ->
  exists results' w',
    visit_file (read_from_archive_file_with rfd) outputPath (PyConfig c)
      subDir file results w = Returns results' w'.
Proof.
  intros Hfile. apply andb_prop in Hfile as [Hname Harch].
  apply negb_true_iff in Harch.
  destruct (is_image file) eqn:Himg.
  - destruct (read_from_file_image subDir file w Hname Himg) as [w' Hread].
    unfold visit_file, is_image in *.
    destruct (Path.splitext file) as [fileName fileExten]. cbn [snd] in Himg.
    rewrite Himg. erewrite bind_Returns by exact Hread. eexists _, _. reflexivity.
  - unfold visit_file, is_image, is_archive in *.
    destruct (Path.splitext file) as [fileName fileExten]. cbn [snd] in Himg, Harch.
    rewrite Himg, Harch. eexists _, _. reflexivity.
Qed.

Lemma visit_returns subDir dirs files results w :
  forallb (fun f => slash_free f && negb (is_archive f)) files = true ->
  exists results' w', body_c subDir dirs files results w = Returns results' w'.
Proof.
  unfold body_c, visit. revert results w.
  induction files as [|file files IH]; intros results w; cbn [for_each forallb].
  - intros _. eexists _, _. reflexivity.
  - intros Hall. apply andb_prop in Hall as [Hfile Hall].
    destruct (visit_file_returns subDir file results w Hfile) as (r1 & w1 & Hrun).
    destruct (IH r1 w1 Hall) as (r2 & w2 & Hrest).
    exists r2, w2. erewrite bind_Returns by exact Hrun. exact Hrest.
Qed.

Lemma walk_returns depth top results w :
  no_archives depth w top = true ->
  exists results' w', walk depth body_c top results w = Returns results' w'.
Proof.
  revert top results w.
  induction depth as [|d IH]; intros top results w; cbn [walk no_archives].
  - discriminate.
  - destruct (scandir w top) as [[dirs files]|]; [|intros _; eexists _, _; reflexivity].
    intros Hno. apply andb_prop in Hno as [Hfiles Hdirs].
    destruct (visit_returns top dirs files results w Hfiles) as (r1 & w1 & Hvisit).
    erewrite bind_Returns by exact Hvisit.
    assert (Ht1 : tree w1 = tree w).
    { unfold body_c in Hvisit.
      exact (proj1 (visit_sink rfd outputPath out (PyConfig c) Hsink _ _ _ _ _ _ _ Hvisit)). }
    clear Hvisit Hfiles. revert r1 w1 Ht1.
    induction dirs as [|x dirs IHd]; intros r1 w1 Ht1; cbn [for_each forallb] in *.
    + eexists _, _. reflexivity.
    + apply andb_prop in Hdirs as [Hx Hdirs].
      rewrite <- (no_archives_tree d w w1 _ Ht1) in Hx.
      destruct (IH _ r1 w1 Hx) as (r2 & w2 & Hwalk).
      erewrite bind_Returns by exact Hwalk.
      apply (IHd Hdirs).
      unfold body_c in Hwalk.
      pose proof (proj1 (walk_sink rfd outputPath out (PyConfig c) Hsink _ _ _ _ _ _ Hwalk)).
      congruence.
Qed.

End Sink_total.

Lemma no_archives_mono depth depth' w top :
  depth <= depth' -> no_archives depth w top = true -> no_archives depth' w top = true.
Proof.
  revert depth' top. induction depth as [|d IH]; intros depth' top Hle; simpl.
  - discriminate.
  - destruct depth' as [|d']; [lia|]. simpl.
    destruct (scandir w top) as [[dirs files]|]; [|reflexivity].
    intros Hq. apply andb_prop in Hq as [Hf Hd]. rewrite Hf. simpl.
    rewrite forallb_forall in *. intros x Hx. apply IH; [lia|]. now apply Hd.
Qed.

(** With an [outputPath] that is a non-empty string, [if outputPath:]
    holds: [read_from_file] returns [None] after appending its rows,
    and [read_from_archive_file] returns [None];
    the loop of [read_from_directory] raises [TypeError] on an archive
    whose processing returns; on a directory under which the walk lists
    a file with an image or archive extension, [read_from_directory]
    never returns; and with a [Config] object, a recogniser that reads
    every image and no archive under the directory, it raises
    [TypeError], the file tree being as before. *)
Theorem sink_mode_never_completes
  (fuel : nat) (directory : string) (outputPath : option string)
  (config : pyobj Config) (w : World) :
  truthy outputPath = true ->
  (forall imagePath w0 a w',
      read_from_file imagePath outputPath config w0 = Returns a w' ->
      a = None /\
      exists out lines,
        outputPath = Some out /\
        written w' = (written w0 ++ map (Row out imagePath) lines)%list) /\
  (forall path w0 r w',
      read_from_archive_file fuel path outputPath config w0 = Returns r w' ->
      r = None) /\
  (forall subDir file results w0 r w1,
      is_archive file = true ->
      read_from_archive_file fuel (Path.join subDir file) outputPath config w0
      = Returns r w1 ->
      visit_file (read_from_archive_file fuel) outputPath config subDir file results w0
      = Raises TypeError w1) /\
  (forall depth,
      finds_recognised depth w directory = true ->
      forall r w', read_from_directory fuel directory outputPath config w <> Returns r w') /\
  (forall depth c,
      config = PyConfig c ->
      (forall path n, exists lines, Reader_read c path n = inr lines) ->
      no_archives depth w directory = true ->
      finds_recognised depth w directory = true ->
      depth < fuel ->
      exists w',
        read_from_directory fuel directory outputPath config w = Raises TypeError w' /\
        tree w' = tree w).
Proof.
  intros Htruthy. destruct (sink_of_truthy outputPath Htruthy) as (out & Hout & Hsink).
  split; [|split; [|split; [|split]]].
  - intros imagePath w0 a w' Hrun.
    destruct (read_from_file_sink _ _ _ _ _ _ _ Hsink Hrun) as (Ha & _ & lines & Hrows).
    split; [exact Ha|]. now exists out, lines.
  - intros path w0 r w' Hrun.
    exact (read_from_archive_file_sink _ _ _ _ _ _ _ _ Hsink Hrun).
  - intros subDir file results w0 r w1 Harch Hrun.
    pose proof (read_from_archive_file_sink _ _ _ _ _ _ _ _ Hsink Hrun) as ->.
    unfold visit_file, is_archive in *.
    destruct (Path.splitext file) as [fileName fileExten]. cbn [snd] in Harch.
    rewrite (archive_not_image _ Harch), Harch.
    erewrite bind_Returns by exact Hrun. reflexivity.
  - intros depth Hfind r w' Hrun.
    destruct fuel as [|fuel']; [discriminate|]. cbn [read_from_directory] in Hrun.
    apply bind_Returns_inv in Hrun as (results & w1 & Hwalk & Hrest).
    destruct (walk_sink _ _ _ _ Hsink _ _ _ _ _ _ Hwalk) as (_ & Hnone & _ & Hne).
    rewrite Hsink in Hrest.
    erewrite bind_Raises in Hrest; [discriminate|].
    apply write_None_raises; [now apply (Hne depth) | apply Hnone; constructor].
  - intros depth c -> Hreads Hno Hfind Hlt.
    destruct fuel as [|fuel']; [lia|]. cbn [read_from_directory].
    destruct (walk_returns (read_from_directory fuel') outputPath out Hsink c Hreads
                fuel' directory Dict.empty w)
      as (results & w1 & Hwalk).
    { apply (no_archives_mono depth); [lia | exact Hno]. }
    destruct (walk_sink _ _ _ _ Hsink _ _ _ _ _ _ Hwalk) as (Htree & Hnone & _ & Hne).
    exists w1. split; [|exact Htree].
    erewrite bind_Returns by exact Hwalk. rewrite Hsink.
    apply bind_Raises.
    apply write_None_raises; [now apply (Hne depth) | apply Hnone; constructor].
Qed.

(** ** Rows written for an archive *)

Lemma silent_ret A (a : A) : silent (ret a).
Proof. intros w. reflexivity. Qed.

Lemma silent_raise A e : silent (@raise A e).
Proof. intros w. reflexivity. Qed.

Lemma silent_lift A (r : error + A) : silent (lift r).
Proof. destruct r; intros w; reflexivity. Qed.

Lemma silent_bind A B (m : M A) (k : A -> M B) :
  silent m -> (forall a, silent (k a)) -> silent (bind m k).
Proof.
  intros Hm Hk w. unfold bind. specialize (Hm w).
  destruct (m w) as [a w1|e w1|]; auto.
  specialize (Hk a w1). destruct (k a w1); auto; congruence.
Qed.

Lemma silent_for_each X A (xs : list X) (body : X -> A -> M A) acc :
  (forall x a, silent (body x a)) -> silent (for_each xs body acc).
Proof.
  intros Hbody. revert acc. induction xs as [|x xs IH]; intros acc; cbn [for_each].
  - apply silent_ret.
  - apply silent_bind; auto.
Qed.

Lemma silent_test_archive path : silent (test_archive path).
Proof.
  intros w. unfold test_archive.
  destruct (node_at w path) as [[d|[|] ok m|es]|]; reflexivity.
Qed.

Lemma silent_list_archive path : silent (list_archive path).
Proof.
  intros w. unfold list_archive.
  destruct (node_at w path) as [[d|ok1 ok2 m|es]|]; reflexivity.
Qed.

Lemma silent_extract_archive path outdir : silent (extract_archive path outdir).
Proof.
  intros w. unfold extract_archive.
  destruct (node_at w path) as [[d|ok1 [|] m|es]|]; try reflexivity.
  destruct (Tree.unpack m (Tree.resolve outdir) (tree w)); reflexivity.
Qed.

Lemma silent_shell_mkdir_p path : silent (shell_mkdir_p path).
Proof. intros w. reflexivity. Qed.

Lemma silent_shell_rm_rf path : silent (shell_rm_rf path).
Proof. intros w. reflexivity. Qed.

Lemma silent_make_reader config : silent (make_reader config).
Proof.
  intros w. pose proof (make_reader_world config w) as Hw.
  destruct (make_reader config w); subst; auto.
Qed.

Section No_sink.

Variable outputPath : option string.
Hypothesis Hnone : sink_of outputPath = None.

Lemma silent_read_from_file imagePath config :
  silent (read_from_file imagePath outputPath config).
Proof.
  unfold read_from_file.
  destruct (Path.splitext imagePath) as [fileName fileExten].
  destruct (negb (Str.mem fileExten IMAGE_EXTENSIONS)); [apply silent_raise|].
  rewrite Hnone. apply silent_bind; [apply silent_make_reader|].
  intros reader. apply silent_bind; [|intros; apply silent_ret].
  destruct reader as [c|]; [|apply silent_raise].
  intros w. apply silent_lift.
Qed.

Lemma silent_read_from_archive_file_with rfd path (config : pyobj Config) :
  (forall d o cfg, sink_of o = None -> silent (rfd d o cfg)) ->
  silent (read_from_archive_file_with rfd path outputPath config).
Proof.
  intros Hrfd. unfold read_from_archive_file_with.
  destruct (Path.splitext path) as [fileName fileExten].
  destruct (negb (Str.mem fileExten ARCHIVE_EXTENSIONS)); [apply silent_raise|].
  rewrite Hnone.
  apply silent_bind; [apply silent_test_archive|]. intros _.
  apply silent_bind; [apply silent_list_archive|]. intros _.
  apply silent_bind; [apply silent_shell_mkdir_p|]. intros _.
  apply silent_bind; [apply silent_extract_archive|]. intros _.
  apply silent_bind; [now apply Hrfd|]. intros results.
  apply silent_bind; [apply silent_shell_rm_rf|]. intros _.
  apply silent_ret.
Qed.

Lemma silent_visit rfd (config : pyobj Config) subDir dirs files results :
  (forall d o cfg, sink_of o = None -> silent (rfd d o cfg)) ->
  silent (visit (read_from_archive_file_with rfd) outputPath config
            subDir dirs files results).
Proof.
  intros Hrfd. unfold visit. apply silent_for_each. intros file acc.
  unfold visit_file. destruct (Path.splitext file) as [fileName fileExten].
  destruct (Str.mem fileExten IMAGE_EXTENSIONS).
  - apply silent_bind; [apply silent_read_from_file | intros; apply silent_ret].
  - destruct (Str.mem fileExten ARCHIVE_EXTENSIONS); [|apply silent_ret].
    apply silent_bind; [now apply silent_read_from_archive_file_with|].
    intros [other|]; [apply silent_ret | apply silent_raise].
Qed.

Lemma silent_walk A fuel (body : string -> list string -> list string -> A -> M A)
  top acc :
  (forall subDir dirs files a, silent (body subDir dirs files a)) ->
  silent (walk fuel body top acc).
Proof.
  intros Hbody. revert top acc.
  induction fuel as [|fuel IH]; intros top acc w; cbn [walk]; [exact I|].
  destruct (scandir w top) as [[dirs files]|]; [|reflexivity].
  apply silent_bind; [apply Hbody|]. intros acc'.
  apply silent_for_each. intros d a. apply IH.
Qed.

End No_sink.

(** Without an output file, [read_from_directory] appends no row. *)
Lemma silent_read_from_directory fuel directory outputPath config :
  sink_of outputPath = None ->
  silent (read_from_directory fuel directory outputPath config).
Proof.
  revert directory outputPath config.
  induction fuel as [|fuel IH]; intros directory outputPath config Hnone;
    cbn [read_from_directory].
  - intros w. exact I.
  - rewrite Hnone. apply silent_bind; [|intros; apply silent_ret].
    apply silent_walk. intros subDir dirs files a.
    apply silent_visit; [exact Hnone|]. intros d o cfg Ho. now apply IH.
Qed.







End Api_facts.

Lemma unsupported_extension_raises_witness :
  read_from_file "cover.gif" None Demo.cfg Demo.w_dirs =
  Raises (Exception_ "Unsupported image file format: .gif") Demo.w_dirs /\
  read_from_archive_file 1 "covers/cover.gif" None Demo.cfg Demo.w_dirs =
  Raises (Exception_ "Unsupported archive file format: .gif") Demo.w_dirs.
Proof.
  split.
  - apply (proj1 (unsupported_extension_raises 0 "cover.gif" None Demo.cfg Demo.w_dirs)).
    reflexivity.
  - apply (proj2 (unsupported_extension_raises 1 "covers/cover.gif" None Demo.cfg Demo.w_dirs)).
    reflexivity.
Defined.

Lemma text_config_without_brace_is_unbound_witness :
  Str.startswith "{" "config.ini" = false /\
  read_from_file "comics/page1.jpg" None (PyStr "config.ini") Demo.w_dirs =
  Raises UnboundLocalError Demo.w_dirs.
Proof.
  split; [reflexivity|].
  apply text_config_without_brace_is_unbound; reflexivity.
Defined.

Lemma empty_directory_returns_empty_witness :
  node_at Demo.w_dirs "empty" = Some (Dir []) /\
  node_at Demo.w_dirs "missing" = None /\
  read_from_directory 2 "empty" None Demo.cfg Demo.w_dirs = Returns (Some []) Demo.w_dirs /\
  read_from_directory 2 "missing" None Demo.cfg Demo.w_dirs = Returns (Some []) Demo.w_dirs.
Proof.
  split; [reflexivity|]. split; [reflexivity|]. split.
  - apply empty_directory_returns_empty. right. reflexivity.
  - apply empty_directory_returns_empty. left. reflexivity.
Defined.



(** C3, as stated, fails.  In [comics] the archive [bad.zip] fails its
    integrity test between the pages [page1.jpg] and [page2.jpg]:
    [read_from_directory] raises the archive tool's error and returns
    no result set, so neither page's lines reach the caller. *)
Lemma corrupt_archive_loses_siblings :
  read_from_directory 3 "comics" None Demo.cfg Demo.w_dirs =
  Raises PatoolError (log_test "comics/bad.zip" false Demo.w_dirs).
Proof. vm_compute. reflexivity. Qed.

Lemma corrupt_archive_aborts_directory_witness :
  scandir Demo.w_dirs "comics" = Some ([], ["page1.jpg"; "bad.zip"; "page2.jpg"]) /\
  intact Demo.w_dirs "comics/bad.zip" = false /\
  read_from_directory 2 "comics" None Demo.cfg Demo.w_dirs =
  Raises PatoolError (log_test "comics/bad.zip" false Demo.w_dirs).
Proof.
  split; [reflexivity|]. split; [reflexivity|].
  apply (proj2 (@corrupt_archive_aborts_directory _ _ 0 "comics" None Demo.cfg
                  Demo.w_dirs)
           Demo.w_dirs [] ["page1.jpg"] ["page2.jpg"] "bad.zip"
           [("comics/page1.jpg", Some ["HELLO"])]);
    vm_compute; reflexivity.
Defined.

Lemma unrecognised_entries_are_skipped_witness :
  unrecognised "cover.gif" = true /\
  quiet 1 Demo.w_dirs "covers" = true /\
  read_from_directory 2 "covers" None Demo.cfg Demo.w_dirs =
  Returns (Some []) Demo.w_dirs.
Proof.
  split; [reflexivity|]. split; [reflexivity|].
  apply (proj2 (@unrecognised_entries_are_skipped _ _ 2 1 "covers" Demo.cfg Demo.w_dirs)).
  - reflexivity.
  - lia.
Defined.

Lemma sink_mode_never_completes_witness :
  truthy (Some "out.csv") = true /\
  no_archives 2 Demo.w_dirs "pages" = true /\
  finds_recognised 2 Demo.w_dirs "pages" = true /\
  exists w',
    @read_from_directory _ Demo.lenient 3 "pages" (Some "out.csv") Demo.cfg Demo.w_dirs
    = Raises TypeError w' /\
    tree w' = tree Demo.w_dirs.
Proof.
  split; [reflexivity|]. split; [reflexivity|]. split; [reflexivity|].
  apply (proj2 (proj2 (proj2 (proj2
           (@sink_mode_never_completes _ Demo.lenient 3 "pages" (Some "out.csv")
              Demo.cfg Demo.w_dirs eq_refl)))) 2 []).
  - reflexivity.
  - intros path [[d|ok1 ok2 m|es]|]; eexists; reflexivity.
  - reflexivity.
  - reflexivity.
  - lia.
Defined.

(** C2.  [read_from_archive_file] without [outputPath] on [book.cbr],
    whose pages read [HELLO] and [WORLD], returns the dictionary built
    inside the workspace as it is: its keys are [tmp/page1.jpg] and
    [tmp/page2.jpg], paths into the workspace [tmp], which is gone when
    the call returns; with an output file the same pages are written
    under [book.cbr/page1.jpg] and [book.cbr/page2.jpg]. *)
Theorem archive_result_keys_are_workspace_paths :
  read_from_archive_file 2 "book.cbr" None Demo.cfg Demo.w0 =
  Returns (Some [("tmp/page1.jpg", Some ["HELLO"]); ("tmp/page2.jpg", Some ["WORLD"])])
    (log_test "book.cbr" true Demo.w0) /\
  node_at (log_test "book.cbr" true Demo.w0) (tempDir_of "book.cbr") = None /\
  read_from_archive_file 2 "book.cbr" (Some "out.csv") Demo.cfg Demo.w0 =
  Returns None
    (mkWorld (tree Demo.w0)
       [Row "out.csv" "book.cbr/page1.jpg" "HELLO";
        Row "out.csv" "book.cbr/page2.jpg" "WORLD"]
       [("book.cbr", true)]).
Proof. repeat split; vm_compute; reflexivity. Qed.

(** * Further properties of the module *)

(** ** Base names and workspaces *)

Module NameFacts.
Import Str Path PathFacts.

Lemma take_drop n s : take n s ++ drop n s = s.
Proof.
  revert s. induction n as [|n IH]; intros [|c r]; simpl; try reflexivity.
  now rewrite IH.
Qed.

Lemma splitdrive_parts p : fst (splitdrive p) ++ snd (splitdrive p) = p.
Proof.
  unfold splitdrive.
  assert (Hnil : forall u : string, u ++ "" = u) by (induction u; simpl; congruence).
  destruct (2 <=? String.length p)%nat; [|reflexivity].
  destruct (two_seps p).
  - destruct (find is_ntsep p _ =? -1)%Z; [apply Hnil|].
    destruct (find is_ntsep p _ =? -1)%Z; [apply Hnil|]. apply take_drop.
  - destruct (String.eqb (slice 1 2 p) ":"); [apply take_drop | reflexivity].
Qed.

Lemma no_drive_splitdrive p : no_drive p = true -> splitdrive p = ("", p).
Proof.
  unfold no_drive. intros Hd. apply String.eqb_eq in Hd.
  pose proof (splitdrive_parts p) as Hp. rewrite Hd in Hp.
  destruct (splitdrive p) as [d r]. simpl in *. now subst.
Qed.

Lemma last_sep_end_shift p i last :
  last_sep_end p i last =
  if all_chars (fun c => negb (is_ntsep c)) p then last else i + last_sep_end p 0 0.
Proof.
  revert i last. induction p as [|c r IH]; intros i last; cbn [last_sep_end all_chars].
  - reflexivity.
  - rewrite (IH (S i)), (IH 1).
    destruct (all_chars (fun c0 => negb (is_ntsep c0)) r); destruct (is_ntsep c);
      cbn [negb andb]; lia.
Qed.

Lemma last_sep_end_app a b i last :
  last_sep_end (a ++ b) i last =
  last_sep_end b (i + String.length a) (last_sep_end a i last).
Proof.
  revert i last. induction a as [|c a IH]; intros i last; simpl.
  - now rewrite Nat.add_0_r.
  - rewrite IH. f_equal. lia.
Qed.

(** What is left after the last separator holds no separator. *)
Lemma drop_last_sep p :
  all_chars (fun c => negb (is_ntsep c)) (drop (last_sep_end p 0 0) p) = true.
Proof.
  induction p as [|c r IH]; [reflexivity|].
  cbn [last_sep_end]. rewrite last_sep_end_shift.
  destruct (all_chars (fun c0 => negb (is_ntsep c0)) r) eqn:Hr.
  - destruct (is_ntsep c) eqn:Hc.
    + simpl. now destruct r.
    + simpl. now rewrite Hc, Hr.
  - simpl. exact IH.
Qed.

Lemma ntsplit_tail_sep_free p : sep_free (snd (ntsplit p)) = true.
Proof.
  unfold ntsplit, sep_free. destruct (splitdrive p) as [d r]. simpl.
  apply drop_last_sep.
Qed.

(** The base name of a joined path is the name joined. *)
Lemma ntsplit_join_tail d n :
  sep_free n = true -> no_drive (join d n) = true -> snd (ntsplit (join d n)) = n.
Proof.
  intros Hn Hd. unfold ntsplit. rewrite (no_drive_splitdrive _ Hd). cbn [snd].
  assert (Hpre : exists pre, join d n = pre ++ n /\
                             last_sep_end pre 0 0 = String.length pre).
  { unfold join.
    assert (Hstart : startswith "/" n = false).
    { destruct n as [|c r]; [reflexivity|]. unfold sep_free in Hn.
      cbn [all_chars] in Hn. apply andb_prop in Hn as [Hc _].
      apply negb_true_iff in Hc. unfold is_ntsep in Hc.
      apply orb_false_iff in Hc as [Hc _]. unfold slash in Hc.
      change (startswith "/" (String c r)) with (Ascii.eqb "/"%char c && startswith "" r).
      now rewrite Ascii.eqb_sym, Hc. }
    rewrite Hstart.
    assert (Hslash : forall q, last_sep_end (q ++ "/") 0 0 = String.length (q ++ "/")).
    { intros q. rewrite last_sep_end_app, length_app_char. reflexivity. }
    destruct (String.eqb_spec d "") as [->|Hne]; cbn [orb].
    - exists "". split; reflexivity.
    - destruct (endswith_char slash d) eqn:He.
      + exists d. split; [reflexivity|].
        destruct (TreeFacts.endswith_slash_inv d He) as [q ->]. apply Hslash.
      + exists (d ++ "/"). split; [now rewrite TreeFacts.append_assoc | apply Hslash]. }
  destruct Hpre as (pre & -> & Hlen).
  rewrite last_sep_end_app. cbn [Nat.add]. rewrite last_sep_end_shift.
  unfold sep_free in Hn. rewrite Hn, Hlen. apply drop_app_exact.
Qed.

(** The directory of a joined path depends on the directory only. *)
Lemma dirname_under pre f :
  pre = "" \/ (exists q, pre = q ++ "/") ->
  slash_free f = true ->
  dirname (pre ++ f) = dirname pre.
Proof.
  intros Hpre Hf. unfold dirname. rewrite !rfind_rpos, rpos_app.
  rewrite (rpos_absent slash f Hf).
  assert (Hidx : Z.to_nat (index_of (rpos slash pre) + 1) = String.length pre).
  { destruct Hpre as [->|[q ->]]; [reflexivity|].
    rewrite rpos_app. change (rpos slash "/") with (Some 0).
    rewrite length_app_char. cbn [index_of]. lia. }
  rewrite Hidx, take_app_exact.
  replace (take (String.length pre) pre) with pre; [reflexivity|].
  clear. induction pre as [|c r IH]; simpl; congruence.
Qed.

Lemma join_under d f :
  slash_free f = true ->
  exists pre, (pre = "" \/ (exists q, pre = q ++ "/")) /\
              forall g, slash_free g = true -> join d g = pre ++ g.
Proof.
  intros _.
  assert (Hstart : forall g, slash_free g = true -> startswith "/" g = false).
  { intros [|c r] Hg; [reflexivity|]. unfold slash_free in Hg.
    cbn [all_chars] in Hg. apply andb_prop in Hg as [Hc _].
    apply negb_true_iff in Hc. unfold slash in Hc.
    change (startswith "/" (String c r)) with (Ascii.eqb "/"%char c && startswith "" r).
    now rewrite Ascii.eqb_sym, Hc. }
  unfold join. destruct (String.eqb_spec d "") as [->|Hne]; cbn [orb].
  - exists "". split; [now left|]. intros g Hg. now rewrite (Hstart g Hg).
  - destruct (endswith_char slash d) eqn:He.
    + exists d. split; [right; now apply TreeFacts.endswith_slash_inv|].
      intros g Hg. now rewrite (Hstart g Hg).
    + exists (d ++ "/"). split; [right; now exists d|].
      intros g Hg. now rewrite (Hstart g Hg), TreeFacts.append_assoc.
Qed.

End NameFacts.

(** X1.  [_get_file_name] never returns a string with a slash or a
    backslash in it, whatever the path. *)
Theorem base_name_has_no_separator (path : string) :
  sep_free (_get_file_name path) = true.
Proof.
  unfold _get_file_name.
  pose proof (NameFacts.ntsplit_tail_sep_free path) as Htail.
  destruct (Path.ntsplit path) as [head tail]. cbn [snd] in Htail.
  destruct tail as [|c r]; [|exact Htail].
  unfold Path.ntbasename. apply NameFacts.ntsplit_tail_sep_free.
Qed.

(** X2.  On the path that [os.path.join] builds from a directory and a
    name, [_get_file_name] gives the name back, provided the name is
    not empty, holds no slash and no backslash, and the joined path
    starts with neither a drive letter nor a UNC prefix.  So two pages
    of one name in two folders of an archive get one key. *)
Theorem base_name_of_joined_path (d n : string) :
  n <> "" ->
  sep_free n = true ->
  no_drive (Path.join d n) = true ->
  _get_file_name (Path.join d n) = n.
Proof.
  intros Hne Hn Hd. unfold _get_file_name.
  pose proof (NameFacts.ntsplit_join_tail d n Hn Hd) as Htail.
  destruct (Path.ntsplit (Path.join d n)) as [head tail]. cbn [snd] in Htail.
  subst tail. destruct n; [contradiction | reflexivity].
Qed.

Lemma base_name_of_joined_path_witness :
  _get_file_name (Path.join "comics/tmp/a" "page1.jpg") = "page1.jpg" /\
  _get_file_name (Path.join "comics/tmp/b" "page1.jpg") = "page1.jpg".
Proof.
  split; apply base_name_of_joined_path; solve [discriminate | reflexivity].
Defined.

(** X3.  All the archives listed in one directory are given the same
    workspace: the workspace of [os.path.join(subDir, file)] does not
    depend on [file], for names without a slash. *)
Theorem archives_of_a_directory_share_a_workspace (subDir file1 file2 : string) :
  slash_free file1 = true ->
  slash_free file2 = true ->
  tempDir_of (Path.join subDir file1) = tempDir_of (Path.join subDir file2).
Proof.
  intros H1 H2. unfold tempDir_of.
  destruct (NameFacts.join_under subDir file1 H1) as (pre & Hpre & Hjoin).
  rewrite (Hjoin file1 H1), (Hjoin file2 H2).
  now rewrite !NameFacts.dirname_under.
Qed.

Lemma archives_of_a_directory_share_a_workspace_witness :
  tempDir_of (Path.join "comics" "a.zip") = tempDir_of (Path.join "comics" "b.cbr").
Proof.
  apply archives_of_a_directory_share_a_workspace; reflexivity.
Defined.

(** ** Normalising a configuration *)

Section Config_facts.

Context {Config : Type} `{Collaborators Config}.

Lemma parse_items_spec (items : list (string * string)) :
  forall acc args,
    NoDup (Dict.keys acc ++ Dict.keys items) ->
    parse_items items acc = inr args ->
    Dict.keys args = (Dict.keys acc ++ Dict.keys items)%list /\
    (forall key, ~ In key (Dict.keys items) -> Dict.get key args = Dict.get key acc) /\
    (forall key text,
        Dict.get key items = Some text ->
        exists v, literal_eval text = inr v /\ Dict.get key args = Some v).
Proof.
  induction items as [|[k t] items IH]; intros acc args Hnd; cbn [parse_items].
  - intros [= <-]. cbn [Dict.keys map]. rewrite app_nil_r.
    split; [reflexivity|]. split; [reflexivity | discriminate].
  - destruct (literal_eval t) as [e|v] eqn:Hv; [discriminate|]. intros Hrun.
    assert (Hk : ~ In k (Dict.keys acc)).
    { intros Hin. cbn [Dict.keys map] in Hnd.
      apply NoDup_remove_2 in Hnd. apply Hnd. apply in_or_app. now left. }
    assert (Hk' : ~ In k (Dict.keys items)).
    { intros Hin. cbn [Dict.keys map] in Hnd.
      apply NoDup_remove_2 in Hnd. apply Hnd. apply in_or_app. now right. }
    assert (Hnd' : NoDup (Dict.keys (Dict.set k v acc) ++ Dict.keys items)).
    { rewrite DictFacts.keys_set_absent by assumption.
      rewrite <- app_assoc. exact Hnd. }
    destruct (IH _ _ Hnd' Hrun) as (Hkeys & Hold & Hnew).
    repeat split.
    + rewrite Hkeys, DictFacts.keys_set_absent by assumption.
      now rewrite <- app_assoc.
    + intros key Hkey. cbn [Dict.keys map] in Hkey.
      rewrite Hold by (intros Hin; apply Hkey; right; exact Hin).
      apply DictFacts.get_set_other.
      intros ->. apply Hkey. now left.
    + intros key text. cbn [Dict.get]. destruct (String.eqb_spec key k) as [->|Hne].
      * intros [= <-]. exists v. split; [exact Hv|].
        rewrite Hold by assumption. apply DictFacts.get_set_same.
      * apply Hnew.
Qed.

Lemma parse_items_error (pre post : list (string * string)) key text e :
  forall acc,
    (forall k t, In (k, t) pre -> exists v, literal_eval t = inr v) ->
    literal_eval text = inl e ->
    parse_items (pre ++ (key, text) :: post) acc = inl e.
Proof.
  induction pre as [|[k t] pre IH]; intros acc Hpre Hbad; cbn [app parse_items].
  - now rewrite Hbad.
  - destruct (Hpre k t (or_introl eq_refl)) as [v ->].
    apply IH; [|exact Hbad]. intros k' t' Hin. apply (Hpre k' t'). now right.
Qed.

(** X4.  [_parse_args_in_correct_type] gives one argument for each key
    of the section, in the order of the section, bound to what
    [ast.literal_eval] makes of the text of the key; it raises
    [KeyError] when the parser has no such section, and the error of
    the first text that [ast.literal_eval] rejects otherwise. *)
Theorem parse_args_binds_every_key (configParser : parser) (section : string) :
  (Dict.get section configParser = None ->
   _parse_args_in_correct_type configParser section = inl KeyError) /\
  (forall items args,
      Dict.get section configParser = Some items ->
      Dict.wf items ->
      _parse_args_in_correct_type configParser section = inr args ->
      Dict.keys args = Dict.keys items /\
      forall key text,
        Dict.get key items = Some text ->
        exists v, literal_eval text = inr v /\ Dict.get key args = Some v) /\
  (forall pre key text post e,
      Dict.get section configParser = Some (pre ++ (key, text) :: post)%list ->
      (forall k t, In (k, t) pre -> exists v, literal_eval t = inr v) ->
      literal_eval text = inl e ->
      _parse_args_in_correct_type configParser section = inl e).
Proof.
  unfold _parse_args_in_correct_type. split; [|split].
  - now intros ->.
  - intros items args -> Hwf Hrun.
    destruct (parse_items_spec items Dict.empty args Hwf Hrun) as (Hkeys & _ & Hnew).
    split; [exact Hkeys | exact Hnew].
  - intros pre key text post e -> Hpre Hbad. now apply parse_items_error.
Qed.

(** X5.  [_create_config_from_dict] treats a mapping that lacks the
    default section as the same mapping put under the default section:
    both give the same [Config], or the same error. *)
Theorem flat_mapping_is_nested_mapping (configDict : pyobj Config) :
  py_in DEFAULT_CONFIG_SECTION configDict = inr false ->
  _create_config_from_dict configDict =
  _create_config_from_dict (PyDict [(PyStr DEFAULT_CONFIG_SECTION, configDict)]).
Proof.
  intros Hin. unfold _create_config_from_dict. rewrite Hin.
  cbn [py_in existsb fst]. rewrite String.eqb_refl. reflexivity.
Qed.

(** X6.  For [read_from_file] a mapping, or a text that starts with an
    opening brace, stands for the [Config] that
    [_create_config_from_dict] builds from it: the call does what it
    does on that [Config]; and when [eval] or the normalisation raises,
    the call on a supported image raises that error with the world as
    it was. *)
Theorem normalised_config_is_used
  (imagePath : string) (outputPath : option string) (w : World) :
  (forall items c,
      _create_config_from_dict (PyDict items) = inr c ->
      read_from_file imagePath outputPath (PyDict items) w =
      read_from_file imagePath outputPath (PyConfig c) w) /\
  (forall s d c,
      Str.startswith "{" s = true ->
      py_eval s = inr d ->
      _create_config_from_dict d = inr c ->
      read_from_file imagePath outputPath (PyStr s) w =
      read_from_file imagePath outputPath (PyConfig c) w) /\
  (forall items e,
      is_image imagePath = true ->
      _create_config_from_dict (PyDict items) = inl e ->
      read_from_file imagePath outputPath (PyDict items) w = Raises e w) /\
  (forall s e,
      is_image imagePath = true ->
      Str.startswith "{" s = true ->
      (py_eval s = inl e \/
       exists d, py_eval s = inr d /\ _create_config_from_dict d = inl e) ->
      read_from_file imagePath outputPath (PyStr s) w = Raises e w).
Proof.
  unfold read_from_file, is_image.
  destruct (Path.splitext imagePath) as [fileName fileExten]. cbn [snd].
  split; [|split; [|split]].
  - intros items c Hc.
    destruct (negb (Str.mem fileExten IMAGE_EXTENSIONS)); [reflexivity|].
    unfold bind at 1 3. rewrite make_reader_dict, Hc. reflexivity.
  - intros s d c Hs Hd Hc.
    destruct (negb (Str.mem fileExten IMAGE_EXTENSIONS)); [reflexivity|].
    unfold bind at 1 3. rewrite (make_reader_text s w Hs), Hd, Hc. reflexivity.
  - intros items e -> Hc. cbn [negb].
    unfold bind at 1. now rewrite make_reader_dict, Hc.
  - intros s e -> Hs Hbad. cbn [negb].
    unfold bind at 1. rewrite (make_reader_text s w Hs).
    destruct Hbad as [->|(d & -> & ->)]; reflexivity.
Qed.

(** X7.  A [config] that is [None], a boolean, an integer or a list
    makes [read_from_file] on a supported image raise
    [Exception('Unsupported config type')], before the recogniser is
    called and with the world as it was. *)
Theorem other_config_types_are_refused
  (imagePath : string) (outputPath : option string) (config : pyobj Config)
  (w : World) :
  is_image imagePath = true ->
  match config with
  | PyConfig _ | PyStr _ | PyDict _ => True
  | _ =>
      read_from_file imagePath outputPath config w =
      Raises (Exception_ "Unsupported config type") w
  end.
Proof.
  unfold read_from_file, is_image.
  destruct (Path.splitext imagePath) as [fileName fileExten]. cbn [snd].
  intros ->. destruct config; try exact I; reflexivity.
Qed.

End Config_facts.

Lemma parse_args_binds_every_key_witness :
  @_parse_args_in_correct_type _ Demo2.ports
    [("comicsocr", [("debug", "True"); ("verbose", "False")])] "other" = inl KeyError /\
  (Dict.keys [("debug", PyBool true : Demo2.obj); ("verbose", PyBool false)]
   = ["debug"; "verbose"] /\
   forall key text,
     Dict.get key [("debug", "True"); ("verbose", "False")] = Some text ->
     exists v,
       Demo2.literal_eval text = inr v /\
       Dict.get key [("debug", PyBool true : Demo2.obj); ("verbose", PyBool false)]
       = Some v) /\
  @_parse_args_in_correct_type _ Demo2.ports
    [("comicsocr", [("debug", "True"); ("lang", "en")])] "comicsocr"
  = inl (External "ValueError").
Proof.
  split; [|split].
  - apply (proj1 (@parse_args_binds_every_key _ Demo2.ports
                    [("comicsocr", [("debug", "True"); ("verbose", "False")])] "other")).
    reflexivity.
  - apply (proj1 (proj2 (@parse_args_binds_every_key _ Demo2.ports
                           [("comicsocr", [("debug", "True"); ("verbose", "False")])]
                           "comicsocr"))
             [("debug", "True"); ("verbose", "False")]
             [("debug", PyBool true); ("verbose", PyBool false)]).
    + reflexivity.
    + repeat constructor; simpl; intuition discriminate.
    + reflexivity.
  - apply (proj2 (proj2 (@parse_args_binds_every_key _ Demo2.ports
                           [("comicsocr", [("debug", "True"); ("lang", "en")])]
                           "comicsocr"))
             [("debug", "True")] "lang" "en" []).
    + reflexivity.
    + intros k t [[= <- <-]|[]]. now exists (PyBool true).
    + reflexivity.
Defined.

Lemma flat_mapping_is_nested_mapping_witness :
  @_create_config_from_dict _ Demo2.ports (PyDict [(PyStr "debug", PyBool true)])
  = inr [("debug", true)] /\
  @_create_config_from_dict _ Demo2.ports
    (PyDict [(PyStr "comicsocr", PyDict [(PyStr "debug", PyBool true)])])
  = inr [("debug", true)].
Proof.
  split; [reflexivity|].
  etransitivity; [|reflexivity].
  symmetry.
  exact (@flat_mapping_is_nested_mapping _ Demo2.ports
           (PyDict [(PyStr "debug", PyBool true)]) eq_refl).
Defined.

Lemma normalised_config_is_used_witness :
  @read_from_file _ Demo2.ports "pages/p1.jpg" None
    (PyDict [(PyStr "debug", PyBool true)]) Demo2.w_flat
  = Returns (Some ["ONE"]) Demo2.w_flat /\
  @read_from_file _ Demo2.ports "pages/p1.jpg" None (PyStr "{'debug': True}") Demo2.w_flat
  = Returns (Some ["ONE"]) Demo2.w_flat /\
  @read_from_file _ Demo2.ports "pages/p1.jpg" None
    (PyDict [(PyStr "debug", PyInt 1)]) Demo2.w_flat
  = Raises (External "TypeError") Demo2.w_flat /\
  @read_from_file _ Demo2.ports "pages/p1.jpg" None (PyStr "{oops") Demo2.w_flat
  = Raises (External "SyntaxError") Demo2.w_flat.
Proof.
  pose proof (@normalised_config_is_used _ Demo2.ports "pages/p1.jpg" None Demo2.w_flat)
    as (Hdict & Htext & Hdict_err & Htext_err).
  split; [|split; [|split]].
  - rewrite (Hdict [(PyStr "debug", PyBool true)] [("debug", true)] eq_refl).
    reflexivity.
  - rewrite (Htext "{'debug': True}" (PyDict [(PyStr "debug", PyBool true)])
               [("debug", true)] eq_refl eq_refl eq_refl).
    reflexivity.
  - apply Hdict_err; reflexivity.
  - apply Htext_err; [reflexivity | reflexivity | now left].
Defined.

Lemma other_config_types_are_refused_witness :
  read_from_file "comics/page1.jpg" None (PyInt 3 : Demo.obj) Demo.w_dirs =
  Raises (Exception_ "Unsupported config type") Demo.w_dirs.
Proof.
  apply (@other_config_types_are_refused _ Demo.ports "comics/page1.jpg" None
           (PyInt 3) Demo.w_dirs).
  reflexivity.
Defined.

(** ** Reading files and directories *)

Section Reading_facts.

Context {Config : Type} `{Collaborators Config}.

(** X8.  [read_from_file] is all or nothing.  When it raises, the world
    is exactly as it was.  When it returns, the file tree and the
    record of integrity tests are as they were, the recogniser has read
    the file at [imagePath]; without [outputPath] its lines are
    returned and no row is appended, with [outputPath] one row is
    appended for each line, in order, under the key [imagePath], and
    [None] is returned. *)
Theorem read_from_file_all_or_nothing
  (imagePath : string) (outputPath : option string) (config : pyobj Config)
  (w : World) :
  match read_from_file imagePath outputPath config w with
  | Returns a w' =>
      tree w' = tree w /\ tested w' = tested w /\
      exists c lines,
        Reader_read c imagePath (node_at w imagePath) = inr lines /\
        match sink_of outputPath with
        | Some out =>
            a = None /\
            written w' = (written w ++ map (Row out imagePath) lines)%list
        | None => a = Some lines /\ written w' = written w
        end
  | Raises _ w' => w' = w
  | NoFuel => False
  end.
Proof.
  unfold read_from_file.
  destruct (Path.splitext imagePath) as [fileName fileExten].
  destruct (negb (Str.mem fileExten IMAGE_EXTENSIONS)); [reflexivity|].
  unfold bind at 1. pose proof (make_reader_world config w) as Hw.
  destruct (make_reader config w) as [reader w1|e w1|]; [subst w1| exact Hw | exact Hw].
  destruct reader as [c|]; [|reflexivity].
  unfold bind at 1, lift.
  destruct (Reader_read c imagePath (node_at w imagePath)) as [e|lines] eqn:Hread;
    [reflexivity|].
  unfold ret at 1.
  destruct (sink_of outputPath) as [out|].
  - cbn. repeat split. exists c, lines. auto.
  - cbn. repeat split. exists c, lines. auto.
Qed.

Lemma truthy_false_sink outputPath : truthy outputPath = false -> sink_of outputPath = None.
Proof.
  destruct outputPath as [s|]; [|reflexivity]. unfold sink_of. now intros ->.
Qed.

(** X9.  Called with [outputPath] [None] or the empty string, none of
    [read_from_file], [read_from_archive_file] and [read_from_directory]
    appends a row to any output file, whether it returns or raises. *)
Theorem no_output_path_appends_nothing
  (fuel : nat) (path : string) (outputPath : option string) (config : pyobj Config) :
  truthy outputPath = false ->
  silent (read_from_file path outputPath config) /\
  silent (read_from_archive_file fuel path outputPath config) /\
  silent (read_from_directory fuel path outputPath config).
Proof.
  intros Hfalse. apply truthy_false_sink in Hfalse. split; [|split].
  - now apply silent_read_from_file.
  - apply silent_read_from_archive_file_with; [exact Hfalse|].
    intros d o cfg Ho. now apply silent_read_from_directory.
  - now apply silent_read_from_directory.
Qed.

(** X10.  On a directory under which the walk lists no file with an
    image or archive extension, [read_from_directory] with an
    [outputPath] returns [None], and the world, rows included, is as it
    was; without [outputPath] it returns the empty dictionary. *)
Theorem nothing_to_read_with_output_path
  (fuel depth : nat) (directory : string) (outputPath : option string)
  (config : pyobj Config) (w : World) :
  quiet depth w directory = true ->
  depth < fuel ->
  read_from_directory fuel directory outputPath config w =
  Returns (match sink_of outputPath with
           | Some _ => None
           | None => Some Dict.empty
           end) w.
Proof.
  intros Hq Hlt. destruct fuel as [|fuel']; [lia|].
  cbn [read_from_directory].
  erewrite bind_Returns.
  2:{ apply walk_quiet. apply (quiet_mono depth fuel'); [lia | exact Hq]. }
  destruct (sink_of outputPath); reflexivity.
Qed.

(** *** What the result sets look like *)

Lemma well_formed_empty : well_formed Dict.empty.
Proof. split; constructor. Qed.

Lemma Forall_set (P : string * script -> Prop) k v (d : results_dict) :
  (forall k', P (k', v)) -> Forall P d -> Forall P (Dict.set k v d).
Proof.
  intros Hv. induction d as [|[k' v'] d IH]; simpl; intros Hd.
  - repeat constructor. apply Hv.
  - inversion Hd; subst. destruct (String.eqb k k'); constructor; auto.
Qed.

Lemma well_formed_set k lines results :
  well_formed results -> well_formed (Dict.set k (Some lines) results).
Proof.
  intros [Hwf Hall]. split.
  - now apply DictFacts.set_wf.
  - apply Forall_set; [discriminate | exact Hall].
Qed.

Lemma well_formed_update results other :
  well_formed results -> well_formed other -> well_formed (Dict.update results other).
Proof.
  intros Hr [_ Ho]. revert results Hr.
  induction other as [|[k v] other IH]; intros results Hr; [exact Hr|].
  rewrite DictFacts.update_cons. inversion Ho as [|? ? Hv Ho']; subst.
  apply IH; [exact Ho'|]. destruct v as [lines|]; [|now contradiction Hv].
  now apply well_formed_set.
Qed.

Section No_sink_results.

Variable outputPath : option string.
Hypothesis Hnone : sink_of outputPath = None.

Let good (r : option results_dict) : Prop :=
  exists results, r = Some results /\ well_formed results.

Lemma read_from_file_lines imagePath (config : pyobj Config) w a w' :
  read_from_file imagePath outputPath config w = Returns a w' ->
  exists lines, a = Some lines.
Proof.
  unfold read_from_file.
  destruct (Path.splitext imagePath) as [fileName fileExten].
  destruct (negb (Str.mem fileExten IMAGE_EXTENSIONS)); [discriminate|].
  rewrite Hnone. intros Hrun.
  apply bind_Returns_inv in Hrun as (reader & w1 & _ & Hrun).
  apply bind_Returns_inv in Hrun as (lines & w2 & _ & Hret).
  injection Hret as <- _. now exists lines.
Qed.

Lemma read_from_archive_file_with_good rfd path (config : pyobj Config) w r w' :
  (forall d cfg w1 r1 w2, rfd d None cfg w1 = Returns r1 w2 -> good r1) ->
  read_from_archive_file_with rfd path outputPath config w = Returns r w' ->
  good r.
Proof.
  intros Hrfd. unfold read_from_archive_file_with.
  destruct (Path.splitext path) as [fileName fileExten].
  destruct (negb (Str.mem fileExten ARCHIVE_EXTENSIONS)); [discriminate|].
  rewrite Hnone. intros Hrun.
  do 4 (apply bind_Returns_inv in Hrun as (? & ? & _ & Hrun)).
  apply bind_Returns_inv in Hrun as (results & w5 & Hinner & Hrun).
  apply bind_Returns_inv in Hrun as (? & ? & _ & Hret).
  injection Hret as <- _. exact (Hrfd _ _ _ _ _ Hinner).
Qed.

Lemma visit_file_good rfd (config : pyobj Config) subDir file results w results' w' :
  (forall d cfg w1 r1 w2, rfd d None cfg w1 = Returns r1 w2 -> good r1) ->
  well_formed results ->
  visit_file (read_from_archive_file_with rfd) outputPath config subDir file results w
  = Returns results' w' ->
  well_formed results'.
Proof.
  intros Hrfd Hres. unfold visit_file.
  destruct (Path.splitext file) as [fileName fileExten].
  destruct (Str.mem fileExten IMAGE_EXTENSIONS).
  - intros Hrun. apply bind_Returns_inv in Hrun as (a & w1 & Hread & Hret).
    injection Hret as <- _.
    destruct (read_from_file_lines _ _ _ _ _ Hread) as (lines & ->).
    now apply well_formed_set.
  - destruct (Str.mem fileExten ARCHIVE_EXTENSIONS).
    + intros Hrun. apply bind_Returns_inv in Hrun as (r & w1 & Harch & Hupd).
      destruct (read_from_archive_file_with_good _ _ _ _ _ _ Hrfd Harch)
        as (other & -> & Hother).
      injection Hupd as <- _. now apply well_formed_update.
    + now intros [= <- _].
Qed.

Lemma walk_good rfd (config : pyobj Config) fuel top results w results' w' :
  (forall d cfg w1 r1 w2, rfd d None cfg w1 = Returns r1 w2 -> good r1) ->
  well_formed results ->
  walk fuel (visit (read_from_archive_file_with rfd) outputPath config) top results w
  = Returns results' w' ->
  well_formed results'.
Proof.
  intros Hrfd. revert top results w results' w'.
  induction fuel as [|fuel IH]; intros top results w results' w' Hres; cbn [walk].
  - discriminate.
  - destruct (scandir w top) as [[dirs files]|]; [|now intros [= <- _]].
    intros Hrun. apply bind_Returns_inv in Hrun as (r1 & w1 & Hvisit & Hdirs).
    assert (Hr1 : well_formed r1).
    { clear Hdirs. unfold visit in Hvisit. revert results w Hres Hvisit.
      induction files as [|file files IHf]; intros results w Hres; cbn [for_each].
      - now intros [= <- _].
      - intros Hrun. apply bind_Returns_inv in Hrun as (r2 & w2 & Hfile & Hrest).
        apply (IHf r2 w2); [|exact Hrest].
        exact (visit_file_good _ _ _ _ _ _ _ _ Hrfd Hres Hfile). }
    clear Hvisit. revert r1 w1 Hr1 Hdirs.
    induction dirs as [|d dirs IHd]; intros r1 w1 Hr1; cbn [for_each].
    + now intros [= <- _].
    + intros Hrun. apply bind_Returns_inv in Hrun as (r2 & w2 & Hwalk & Hrest).
      apply (IHd r2 w2); [|exact Hrest]. exact (IH _ _ _ _ _ Hr1 Hwalk).
Qed.

End No_sink_results.

Lemma read_from_directory_good fuel directory config w r w' :
  read_from_directory fuel directory None config w = Returns r w' ->
  exists results, r = Some results /\ well_formed results.
Proof.
  revert directory config w r w'.
  induction fuel as [|fuel IH]; intros directory config w r w';
    cbn [read_from_directory]; [discriminate|].
  intros Hrun. apply bind_Returns_inv in Hrun as (results & w1 & Hwalk & Hret).
  injection Hret as <- _. exists results. split; [reflexivity|].
  apply (walk_good None eq_refl (read_from_directory fuel) config fuel directory
           Dict.empty w results w1); [|apply well_formed_empty|exact Hwalk].
  intros d cfg w1' r1 w2 Hinner. exact (IH _ _ _ _ _ Hinner).
Qed.

(** X11.  Without [outputPath], what [read_from_directory] and
    [read_from_archive_file] return is a dictionary, never [None], in
    which no key occurs twice and every value is a list of lines, never
    [None]. *)
Theorem results_without_output_path_are_well_formed
  (fuel : nat) (path : string) (outputPath : option string)
  (config : pyobj Config) (w w' : World) (r : option results_dict) :
  truthy outputPath = false ->
  read_from_directory fuel path outputPath config w = Returns r w' \/
  read_from_archive_file fuel path outputPath config w = Returns r w' ->
  exists results, r = Some results /\ well_formed results.
Proof.
  intros Hfalse. apply truthy_false_sink in Hfalse. intros [Hrun|Hrun].
  - destruct fuel as [|fuel']; [discriminate|]. cbn [read_from_directory] in Hrun.
    apply bind_Returns_inv in Hrun as (results & w1 & Hwalk & Hret).
    rewrite Hfalse in Hret. injection Hret as <- _.
    exists results. split; [reflexivity|].
    apply (walk_good outputPath Hfalse (read_from_directory fuel') config fuel' path
             Dict.empty w results w1); [|apply well_formed_empty|exact Hwalk].
    intros d cfg w1' r1 w2 Hinner. exact (read_from_directory_good _ _ _ _ _ _ Hinner).
  - apply (read_from_archive_file_with_good outputPath Hfalse (read_from_directory fuel)
             path config w r w'); [|exact Hrun].
    intros d cfg w1' r1 w2 Hinner. exact (read_from_directory_good _ _ _ _ _ _ Hinner).
Qed.

End Reading_facts.

Lemma no_output_path_appends_nothing_witness :
  truthy (Some "") = false /\
  silent (read_from_file "book.cbr" (Some "") Demo.cfg) /\
  silent (read_from_archive_file 3 "book.cbr" (Some "") Demo.cfg) /\
  silent (read_from_directory 3 "book.cbr" (Some "") Demo.cfg).
Proof.
  split; [reflexivity|].
  apply (@no_output_path_appends_nothing _ Demo.ports 3 "book.cbr" (Some "") Demo.cfg).
  reflexivity.
Defined.

Lemma nothing_to_read_with_output_path_witness :
  quiet 1 Demo.w_dirs "covers" = true /\
  read_from_directory 2 "covers" (Some "out.csv") Demo.cfg Demo.w_dirs =
  Returns None Demo.w_dirs.
Proof.
  split; [reflexivity|].
  apply (@nothing_to_read_with_output_path _ Demo.ports 2 1 "covers" (Some "out.csv")
           Demo.cfg Demo.w_dirs).
  - reflexivity.
  - lia.
Defined.

Lemma results_without_output_path_are_well_formed_witness :
  exists results,
    Some [("shelf/tmp/page1.jpg", Some ["HELLO"]);
          ("shelf/tmp/page2.jpg", Some ["WORLD"]);
          ("shelf/old/cover.jpg", Some ["COVER"])] = Some results /\
    well_formed results.
Proof.
  apply (@results_without_output_path_are_well_formed _ Demo2.ports 4 "shelf" None
           (PyConfig []) Demo2.w_flat
           (mkWorld (tree Demo2.w_flat) [] [("shelf/book.cbr", true)])).
  - reflexivity.
  - left. vm_compute. reflexivity.
Defined.

(** ** The workspace in the file tree *)

Module WorkspaceFacts.
Import Str Path Tree PathFacts TreeFacts.












End WorkspaceFacts.

(** ** What happens to the file tree *)

Section Disk_facts.

Context {Config : Type} `{Collaborators Config}.

Lemma undisturbed_bind A B (m : M A) (k : A -> M B) w0 w :
  undisturbed w0 (m w) ->
  (forall a w1, tree w1 = tree w0 -> tested w1 = tested w0 -> undisturbed w0 (k a w1)) ->
  undisturbed w0 (bind m k w).
Proof.
  unfold bind. destruct (m w) as [a w1|e w1|]; simpl; intros Hm Hk.
  - now apply Hk.
  - exact Hm.
  - exact Hm.
Qed.

Lemma undisturbed_for_each X A (xs : list X) (body : X -> A -> M A) w0 :
  (forall x a w1,
      In x xs -> tree w1 = tree w0 -> tested w1 = tested w0 ->
      undisturbed w0 (body x a w1)) ->
  forall acc w,
    tree w = tree w0 -> tested w = tested w0 ->
    undisturbed w0 (for_each xs body acc w).
Proof.
  induction xs as [|x xs IH]; intros Hbody acc w Ht Hl; cbn [for_each].
  - split; assumption.
  - apply undisturbed_bind.
    + apply Hbody; [now left | assumption | assumption].
    + intros a w1 Ht1 Hl1. apply IH; [|assumption|assumption].
      intros y b w2 Hy. apply Hbody. now right.
Qed.

Lemma read_from_file_undisturbed imagePath outputPath (config : pyobj Config) w0 w :
  tree w = tree w0 -> tested w = tested w0 ->
  undisturbed w0 (read_from_file imagePath outputPath config w).
Proof.
  intros Ht Hl. unfold read_from_file.
  destruct (Path.splitext imagePath) as [fileName fileExten].
  destruct (negb (Str.mem fileExten IMAGE_EXTENSIONS)); [split; assumption|].
  apply undisturbed_bind.
  - pose proof (make_reader_world config w) as Hw.
    destruct (make_reader config w) as [reader w1|e w1|]; simpl;
      [subst w1; split; assumption | subst w1; split; assumption | exact Hw].
  - intros reader w1 Ht1 Hl1. apply undisturbed_bind.
    + destruct reader as [c|]; [|split; assumption].
      destruct (Reader_read c imagePath (node_at w1 imagePath)); split; assumption.
    + intros lines w2 Ht2 Hl2.
      destruct (sink_of outputPath) as [out|]; split; assumption.
Qed.

Lemma write_rows_undisturbed out (results : results_dict) w0 w :
  tree w = tree w0 -> tested w = tested w0 ->
  undisturbed w0
    (for_each results
       (fun item (_ : unit) => let '(imagePath, script) := item in
                               write_to_file imagePath script out) tt w).
Proof.
  apply undisturbed_for_each. intros [k [lines|]] [] w1 _ Ht Hl; simpl; auto.
Qed.

Lemma visit_file_undisturbed rfaf outputPath (config : pyobj Config) subDir file
  (results : results_dict) w0 w :
  is_archive file = false ->
  tree w = tree w0 -> tested w = tested w0 ->
  undisturbed w0 (visit_file rfaf outputPath config subDir file results w).
Proof.
  unfold is_archive, visit_file. intros Harch Ht Hl.
  destruct (Path.splitext file) as [fileName fileExten]. cbn [snd] in Harch.
  rewrite Harch.
  destruct (Str.mem fileExten IMAGE_EXTENSIONS).
  - apply undisturbed_bind; [now apply read_from_file_undisturbed|].
    intros a w1 Ht1 Hl1. split; assumption.
  - split; assumption.
Qed.

Lemma walk_undisturbed rfaf outputPath (config : pyobj Config) fuel w0 :
  forall top (results : results_dict) w,
    no_archives fuel w0 top = true ->
    tree w = tree w0 -> tested w = tested w0 ->
    undisturbed w0 (walk fuel (visit rfaf outputPath config) top results w).
Proof.
  induction fuel as [|fuel IH]; intros top results w Hno Ht Hl; [discriminate|].
  cbn [walk no_archives] in *. rewrite (scandir_tree _ _ top Ht).
  destruct (scandir w0 top) as [[dirs files]|]; [|split; assumption].
  apply andb_prop in Hno as [Hfiles Hdirs].
  rewrite forallb_forall in Hfiles, Hdirs.
  apply undisturbed_bind.
  - unfold visit. apply undisturbed_for_each; [|assumption|assumption].
    intros file acc w1 Hin Ht1 Hl1. apply visit_file_undisturbed; [|assumption|assumption].
    apply Hfiles in Hin. apply andb_prop in Hin as [_ Hin].
    now apply negb_true_iff in Hin.
  - intros acc w1 Ht1 Hl1. apply undisturbed_for_each; [|assumption|assumption].
    intros d a w2 Hin Ht2 Hl2. apply IH; [|assumption|assumption]. now apply Hdirs.
Qed.

Lemma read_from_directory_undisturbed fuel depth directory outputPath
  (config : pyobj Config) w0 w :
  no_archives depth w0 directory = true ->
  depth < fuel ->
  tree w = tree w0 -> tested w = tested w0 ->
  undisturbed w0 (read_from_directory fuel directory outputPath config w).
Proof.
  intros Hno Hlt Ht Hl. destruct fuel as [|fuel']; [lia|].
  cbn [read_from_directory]. apply undisturbed_bind.
  - apply walk_undisturbed; [|assumption|assumption].
    apply (no_archives_mono depth fuel'); [lia | exact Hno].
  - intros results w1 Ht1 Hl1. destruct (sink_of outputPath) as [out|].
    + apply undisturbed_bind; [now apply write_rows_undisturbed|].
      intros [] w2 Ht2 Hl2. split; assumption.
    + split; assumption.
Qed.

(** X12.  On a directory under which the walk lists no file with an
    archive extension, [read_from_directory] returns or raises with
    the file tree and the record of integrity tests as they were:
    nothing is created, extracted, removed or tested. *)
Theorem directory_without_archives_is_left_alone
  (fuel depth : nat) (directory : string) (outputPath : option string)
  (config : pyobj Config) (w : World) :
  no_archives depth w directory = true ->
  depth < fuel ->
  undisturbed w (read_from_directory fuel directory outputPath config w).
Proof.
  intros Hno Hlt.
  now apply (read_from_directory_undisturbed fuel depth directory outputPath config w w).
Qed.


(** *** The stages of [read_from_archive_file] *)










End Disk_facts.

Lemma directory_without_archives_is_left_alone_witness :
  no_archives 1 Demo2.w_flat "pages" = true /\
  undisturbed Demo2.w_flat
    (@read_from_directory _ Demo2.ports 2 "pages" (Some "out.csv") (PyConfig [])
       Demo2.w_flat).
Proof.
  split; [reflexivity|].
  apply (@directory_without_archives_is_left_alone _ Demo2.ports 2 1 "pages"
           (Some "out.csv") (PyConfig []) Demo2.w_flat).
  - reflexivity.
  - lia.
Defined.




(** ** What a directory of pages gives *)

Section Pages.

Context {Config : Type} `{Collaborators Config}.

Variables (rfaf : string -> option string -> pyobj Config -> M (option results_dict))
          (outputPath : option string) (c : Config) (w : World).
Hypothesis Hnone : sink_of outputPath = None.

(** [results] holds the lines of every path of [ps], and nothing
    else. *)
Let holds (results : results_dict) (ps : list string) : Prop :=
  (forall p, In p (Dict.keys results) <-> In p ps) /\
  (forall p lines,
      In p ps -> Reader_read c p (node_at w p) = inr lines ->
      Dict.get p results = Some (Some lines)).

Lemma keys_set_in (p q : string) (v : script) (d : results_dict) :
  In q (Dict.keys (Dict.set p v d)) <-> q = p \/ In q (Dict.keys d).
Proof.
  destruct (in_dec string_dec p (Dict.keys d)) as [Hin|Hout].
  - rewrite (DictFacts.keys_set_present _ p v d Hin). split; [now right|].
    intros [->|Hq]; assumption.
  - rewrite (DictFacts.keys_set_absent _ p v d Hout), in_app_iff. simpl.
    split; [intros [Hq|[->|[]]]; auto | intros [->|Hq]; auto].
Qed.

Lemma holds_set results ps p lines :
  holds results ps ->
  Reader_read c p (node_at w p) = inr lines ->
  holds (Dict.set p (Some lines) results) (ps ++ [p]).
Proof.
  intros [Hkeys Hget] Hread. split.
  - intros q. rewrite keys_set_in, in_app_iff, Hkeys. simpl. intuition.
  - intros q lines' Hq Hread'.
    destruct (string_dec q p) as [->|Hne].
    + rewrite DictFacts.get_set_same. congruence.
    + rewrite DictFacts.get_set_other by exact Hne.
      apply Hget; [|exact Hread'].
      apply in_app_iff in Hq as [Hq|[->|[]]]; [exact Hq | contradiction].
Qed.

Lemma visit_file_image subDir file results lines :
  slash_free file = true -> is_image file = true ->
  Reader_read c (Path.join subDir file) (node_at w (Path.join subDir file)) = inr lines ->
  visit_file rfaf outputPath (PyConfig c) subDir file results w =
  Returns (Dict.set (Path.join subDir file) (Some lines) results) w.
Proof.
  intros Hname Himg Hread. unfold visit_file.
  assert (Hfile : read_from_file (Path.join subDir file) outputPath (PyConfig c) w
                  = Returns (Some lines) w).
  { unfold read_from_file, is_image in *.
    pose proof (PathFacts.splitext_join subDir file Hname) as Hjoin.
    destruct (Path.splitext (Path.join subDir file)) as [fileName fileExten].
    cbn [snd] in Hjoin. subst fileExten. rewrite Himg, Hnone. cbn [negb].
    unfold make_reader, bind, ret, lift. now rewrite Hread. }
  unfold is_image in Himg.
  destruct (Path.splitext file) as [fileName fileExten]. cbn [snd] in Himg.
  rewrite Himg. erewrite bind_Returns by exact Hfile. reflexivity.
Qed.

Lemma visit_file_other subDir file results :
  is_image file = false -> is_archive file = false ->
  visit_file rfaf outputPath (PyConfig c) subDir file results w = Returns results w.
Proof.
  unfold visit_file, is_image, is_archive.
  destruct (Path.splitext file) as [fileName fileExten]. cbn [snd].
  now intros -> ->.
Qed.

Lemma visit_pages subDir dirs files :
  forall results ps,
    forallb (fun f => slash_free f && negb (is_archive f)) files = true ->
    (forall p, In p (map (Path.join subDir) (filter is_image files)) ->
               exists lines, Reader_read c p (node_at w p) = inr lines) ->
    holds results ps ->
    exists results',
      visit rfaf outputPath (PyConfig c) subDir dirs files results w = Returns results' w /\
      holds results' (ps ++ map (Path.join subDir) (filter is_image files)).
Proof.
  unfold visit.
  induction files as [|file files IH]; intros results ps Hall Hreads Hres;
    cbn [for_each forallb filter] in *.
  - exists results. rewrite app_nil_r. split; [reflexivity | exact Hres].
  - apply andb_prop in Hall as [Hfile Hall]. apply andb_prop in Hfile as [Hname Harch].
    apply negb_true_iff in Harch.
    destruct (is_image file) eqn:Himg.
    + cbn [map] in *.
      destruct (Hreads (Path.join subDir file) (or_introl eq_refl)) as [lines Hread].
      erewrite bind_Returns by (apply visit_file_image; eassumption).
      destruct (IH (Dict.set (Path.join subDir file) (Some lines) results)
                  (ps ++ [Path.join subDir file])%list Hall) as (results' & Hrun & Hres').
      * intros p Hp. apply Hreads. now right.
      * now apply holds_set.
      * exists results'. split; [exact Hrun|].
        rewrite <- app_assoc in Hres'. exact Hres'.
    + erewrite bind_Returns by (apply visit_file_other; assumption).
      now apply IH.
Qed.

Lemma walk_pages fuel :
  forall depth top results ps,
    depth <= fuel ->
    no_archives depth w top = true ->
    (forall p, In p (images_under depth w top) ->
               exists lines, Reader_read c p (node_at w p) = inr lines) ->
    holds results ps ->
    exists results',
      walk fuel (visit rfaf outputPath (PyConfig c)) top results w = Returns results' w /\
      holds results' (ps ++ images_under depth w top).
Proof.
  induction fuel as [|fuel IH]; intros depth top results ps Hle Hno Hreads Hres.
  - destruct depth; [discriminate | lia].
  - destruct depth as [|depth]; [discriminate|].
    cbn [walk no_archives images_under] in *.
    destruct (scandir w top) as [[dirs files]|].
    + apply andb_prop in Hno as [Hfiles Hdirs].
      destruct (visit_pages top dirs files results ps Hfiles) as (r1 & Hvisit & Hr1).
      { intros p Hp. apply Hreads. apply in_app_iff. now left. }
      { exact Hres. }
      erewrite bind_Returns by exact Hvisit.
      assert (Hsub : forall p,
                 In p (flat_map (fun d => images_under depth w (Path.join top d)) dirs) ->
                 exists lines, Reader_read c p (node_at w p) = inr lines).
      { intros p Hp. apply Hreads. apply in_app_iff. now right. }
      rewrite app_assoc.
      generalize dependent (ps ++ map (Path.join top) (filter is_image files))%list.
      clear Hvisit Hfiles Hreads Hres results ps. revert r1.
      induction dirs as [|d dirs IHd]; intros r1 ps Hr1; cbn [for_each forallb flat_map] in *.
      * exists r1. rewrite app_nil_r. split; [reflexivity | exact Hr1].
      * apply andb_prop in Hdirs as [Hd Hdirs].
        destruct (IH depth (Path.join top d) r1 ps) as (r2 & Hwalk & Hr2);
          [lia | exact Hd | | exact Hr1 |].
        { intros p Hp. apply Hsub. apply in_app_iff. now left. }
        erewrite bind_Returns by exact Hwalk.
        destruct (IHd Hdirs (fun p Hp => Hsub p (proj2 (in_app_iff _ _ p) (or_intror Hp)))
                    r2 (ps ++ images_under depth w (Path.join top d))%list Hr2)
          as (r3 & Hrest & Hr3).
        exists r3. split; [exact Hrest|]. rewrite <- app_assoc in Hr3. exact Hr3.
    + exists results. rewrite app_nil_r. split; [reflexivity | exact Hres].
Qed.

End Pages.

(** X16.  On a directory under which the walk lists no file with an
    archive extension, [read_from_directory] without [outputPath],
    given a [Config] object and pages that the recogniser reads,
    returns a dictionary and leaves the world as it is; the keys of the
    dictionary are exactly the paths of the image files that the walk
    lists, and each is bound to the lines read from the file at that
    path. *)
Theorem every_page_of_a_directory_is_read
  {Config : Type} `{Collaborators Config}
  (fuel depth : nat) (directory : string) (outputPath : option string)
  (c : Config) (w : World) :
  truthy outputPath = false ->
  no_archives depth w directory = true ->
  depth < fuel ->
  (forall p, In p (images_under depth w directory) ->
             exists lines, Reader_read c p (node_at w p) = inr lines) ->
  exists results,
    read_from_directory fuel directory outputPath (PyConfig c) w
    = Returns (Some results) w /\
    (forall p, In p (Dict.keys results) <-> In p (images_under depth w directory)) /\
    (forall p lines,
        In p (images_under depth w directory) ->
        Reader_read c p (node_at w p) = inr lines ->
        Dict.get p results = Some (Some lines)).
Proof.
  intros Hfalse Hno Hlt Hreads. apply truthy_false_sink in Hfalse.
  destruct fuel as [|fuel']; [lia|].
  cbn [read_from_directory]. rewrite Hfalse.
  destruct (walk_pages (read_from_archive_file_with (read_from_directory fuel'))
              outputPath c w Hfalse fuel' depth directory Dict.empty [])
    as (results & Hwalk & Hkeys & Hget).
  - lia.
  - exact Hno.
  - exact Hreads.
  - split; [reflexivity|]. intros p lines [].
  - exists results. erewrite bind_Returns by exact Hwalk.
    split; [reflexivity|]. split; assumption.
Qed.

Lemma every_page_of_a_directory_is_read_witness :
  exists results,
    read_from_directory 3 "pages" (Some "") Demo.cfg Demo.w_dirs
    = Returns (Some results) Demo.w_dirs /\
    (forall p, In p (Dict.keys results) <-> In p (images_under 2 Demo.w_dirs "pages")) /\
    (forall p lines,
        In p (images_under 2 Demo.w_dirs "pages") ->
        Reader_read [] p (node_at Demo.w_dirs p) = inr lines ->
        Dict.get p results = Some (Some lines)).
Proof.
  apply (@every_page_of_a_directory_is_read _ Demo.ports 3 2 "pages" (Some "")
           [] Demo.w_dirs).
  - reflexivity.
  - reflexivity.
  - lia.
  - intros p Hp. vm_compute in Hp.
    destruct Hp as [<-|[]]. now exists ["HELLO"].
Defined.

(** ** A page that cannot be read *)

Section Unreadable.

Context {Config : Type} `{Collaborators Config}.

Variables (rfaf : string -> option string -> pyobj Config -> M (option results_dict))
          (outputPath : option string) (c : Config) (w : World).

Lemma read_from_file_returned imagePath w1 a w2 :
  read_from_file imagePath outputPath (PyConfig c) w1 = Returns a w2 ->
  tree w2 = tree w1 /\
  exists lines, Reader_read c imagePath (node_at w1 imagePath) = inr lines.
Proof.
  unfold read_from_file.
  destruct (Path.splitext imagePath) as [fileName fileExten].
  destruct (negb (Str.mem fileExten IMAGE_EXTENSIONS)); [discriminate|].
  unfold make_reader, bind, ret, lift.
  destruct (Reader_read c imagePath (node_at w1 imagePath)) as [e|lines];
    [discriminate|].
  destruct (sink_of outputPath) as [out|]; intros [= _ <-]; split;
    solve [reflexivity | now exists lines].
Qed.

Lemma visit_returned subDir dirs files :
  forall results w1 results' w2,
    forallb (fun f => slash_free f && negb (is_archive f)) files = true ->
    tree w1 = tree w ->
    visit rfaf outputPath (PyConfig c) subDir dirs files results w1 = Returns results' w2 ->
    tree w2 = tree w /\
    forall p, In p (map (Path.join subDir) (filter is_image files)) ->
              exists lines, Reader_read c p (node_at w p) = inr lines.
Proof.
  unfold visit.
  induction files as [|file files IH]; intros results w1 results' w2 Hall Ht;
    cbn [for_each forallb filter] in *.
  - intros [= _ <-]. split; [exact Ht | intros p []].
  - apply andb_prop in Hall as [Hfile Hall]. apply andb_prop in Hfile as [_ Harch].
    apply negb_true_iff in Harch.
    intros Hrun. apply bind_Returns_inv in Hrun as (r1 & w3 & Hone & Hrest).
    unfold visit_file, is_archive in Hone, Harch. unfold is_image at 1.
    destruct (Path.splitext file) as [fileName fileExten]. cbn [snd] in *.
    rewrite Harch in Hone.
    destruct (Str.mem fileExten IMAGE_EXTENSIONS).
    + apply bind_Returns_inv in Hone as (a & w4 & Hread & Hret).
      injection Hret as _ <-.
      apply read_from_file_returned in Hread as (Ht4 & lines & Hlines).
      rewrite (node_at_tree w w1 _ Ht) in Hlines.
      destruct (IH _ _ _ _ Hall (eq_trans Ht4 Ht) Hrest) as (Ht2 & Hothers).
      split; [exact Ht2|]. cbn [map]. intros p [<-|Hp]; [now exists lines | now apply Hothers].
    + injection Hone as _ <-. exact (IH _ _ _ _ Hall Ht Hrest).
Qed.

Lemma walk_returned fuel :
  forall depth top results w1 results' w2,
    depth <= fuel ->
    no_archives depth w top = true ->
    tree w1 = tree w ->
    walk fuel (visit rfaf outputPath (PyConfig c)) top results w1 = Returns results' w2 ->
    tree w2 = tree w /\
    forall p, In p (images_under depth w top) ->
              exists lines, Reader_read c p (node_at w p) = inr lines.
Proof.
  induction fuel as [|fuel IH]; intros depth top results w1 results' w2 Hle Hno Ht.
  - discriminate.
  - destruct depth as [|depth]; [discriminate|].
    cbn [walk no_archives images_under] in *. rewrite (scandir_tree w w1 top Ht).
    destruct (scandir w top) as [[dirs files]|].
    + apply andb_prop in Hno as [Hfiles Hdirs].
      intros Hrun. apply bind_Returns_inv in Hrun as (r1 & w3 & Hvisit & Hrest).
      destruct (visit_returned _ _ _ _ _ _ _ Hfiles Ht Hvisit) as (Ht3 & Hhere).
      assert (Hbelow : tree w2 = tree w /\
                       forall p,
                         In p (flat_map (fun d => images_under depth w (Path.join top d))
                                 dirs) ->
                         exists lines, Reader_read c p (node_at w p) = inr lines).
      { clear Hvisit Hhere Hfiles. revert r1 w3 Ht3 Hrest.
        induction dirs as [|d dirs IHd]; intros r1 w3 Ht3;
          cbn [for_each forallb flat_map] in *.
        - intros [= _ <-]. split; [exact Ht3 | intros p []].
        - apply andb_prop in Hdirs as [Hd Hdirs].
          intros Hrun. apply bind_Returns_inv in Hrun as (r2 & w4 & Hwalk & Hrest).
          destruct (IH depth _ _ _ _ _ ltac:(lia) Hd Ht3 Hwalk) as (Ht4 & Hfirst).
          destruct (IHd Hdirs _ _ Ht4 Hrest) as (Ht2 & Hothers).
          split; [exact Ht2|]. intros p Hp. apply in_app_iff in Hp as [Hp|Hp]; auto. }
      destruct Hbelow as (Ht2 & Hbelow). split; [exact Ht2|].
      intros p Hp. apply in_app_iff in Hp as [Hp|Hp]; auto.
    + intros [= _ <-]. split; [exact Ht | intros p []].
Qed.

End Unreadable.

(** X17.  One page that cannot be read is fatal to the whole call: on
    a directory under which the walk lists no file with an archive
    extension, when the recogniser raises on one of the image files
    that the walk lists, [read_from_directory] given a [Config] object
    raises, with the file tree and the record of integrity tests as
    they were; what was read from the other pages is not returned. *)
Theorem unreadable_page_aborts_directory
  {Config : Type} `{Collaborators Config}
  (fuel depth : nat) (directory : string) (outputPath : option string)
  (c : Config) (w : World) (p : string) (e : error) :
  no_archives depth w directory = true ->
  depth < fuel ->
  In p (images_under depth w directory) ->
  Reader_read c p (node_at w p) = inl e ->
  exists e' w',
    read_from_directory fuel directory outputPath (PyConfig c) w = Raises e' w' /\
    tree w' = tree w /\ tested w' = tested w.
Proof.
  intros Hno Hlt Hp Hbad.
  pose proof (read_from_directory_undisturbed fuel depth directory outputPath (PyConfig c)
                w w Hno Hlt eq_refl eq_refl) as Hrun.
  destruct (read_from_directory fuel directory outputPath (PyConfig c) w)
    as [r w'|e' w'|] eqn:Hcall.
  - exfalso. destruct fuel as [|fuel']; [lia|]. cbn [read_from_directory] in Hcall.
    apply bind_Returns_inv in Hcall as (results & w1 & Hwalk & _).
    destruct (walk_returned _ outputPath c w fuel' depth directory Dict.empty w results w1
                ltac:(lia) Hno eq_refl Hwalk) as (_ & Hreads).
    destruct (Hreads p Hp) as [lines Hlines]. congruence.
  - exists e', w'. split; [reflexivity | exact Hrun].
  - contradiction.
Qed.

Lemma unreadable_page_aborts_directory_witness :
  exists e' w',
    read_from_directory 3 "pages" None Demo.cfg
      (mkWorld (Dir [("pages", Dir [("p1.jpg", File "ONE");
                                    ("in", Dir [("p2.jpg", Packed true true [])])])])
         [] []) = Raises e' w' /\
    tree w' = Dir [("pages", Dir [("p1.jpg", File "ONE");
                                  ("in", Dir [("p2.jpg", Packed true true [])])])] /\
    tested w' = [].
Proof.
  apply (@unreadable_page_aborts_directory _ Demo.ports 3 2 "pages" None []
           (mkWorld (Dir [("pages", Dir [("p1.jpg", File "ONE");
                                         ("in", Dir [("p2.jpg", Packed true true [])])])])
              [] [])
           "pages/in/p2.jpg" (External "cv2.error")).
  - reflexivity.
  - lia.
  - vm_compute. right. left. reflexivity.
  - reflexivity.
Defined.

(** ** The empty string as output path *)



